(** * LsfScraper: login orchestration and semester-scoped class extraction

    A shallow embedding of [backend/app/scrapers/lsf_scraper.py].

    - Text is a [string]; a character stands for a code point below 256
      (the Latin-1 range), with Python's whitespace, digit and lower-case
      tables restricted to that range.
    - The three regular expressions of the source are regex terms, run by a
      derivative matcher and related to a declarative matching relation.
    - A parsed page is a forest of tags and text nodes; document order is
      the preorder of its tags.
    - The browser session is an abstract world behind the [Browser]
      interface; methods of the scraper are computations in a state and
      exception monad that also records every call made on a collaborator. *)

From Stdlib Require Import String Ascii List Bool Arith Lia.
Import ListNotations.
Local Open Scope string_scope.
Local Open Scope list_scope.
Local Open Scope nat_scope.

Set Implicit Arguments.

(* ===================================================================== *)
(** * Part I. Definitions *)
(* ===================================================================== *)

(** ** Characters and strings *)

Module Text.

(** Code points for which Python's [str.isspace] and the regex class [\s]
    hold, below 256: TAB..CR, FS..US, SPACE, NEL and NBSP. *)
Definition is_space (c : ascii) : bool :=
  let n := nat_of_ascii c in
  ((9 <=? n) && (n <=? 13)) || ((28 <=? n) && (n <=? 32))
  || (n =? 133) || (n =? 160).

(** The regex class [\d] below 256: the ten ASCII digits. *)
Definition is_digit (c : ascii) : bool :=
  let n := nat_of_ascii c in (48 <=? n) && (n <=? 57).

(** [str.lower] on one code point below 256: A-Z and the Latin-1 capitals
    (except the multiplication sign) move up by 32. *)
Definition lower_char (c : ascii) : ascii :=
  let n := nat_of_ascii c in
  if ((65 <=? n) && (n <=? 90))
     || ((192 <=? n) && (n <=? 222) && negb (n =? 215))
  then ascii_of_nat (n + 32) else c.

Fixpoint lower (s : string) : string :=
  match s with
  | EmptyString => EmptyString
  | String c r => String (lower_char c) (lower r)
  end.

Fixpoint prefix_of (p s : string) : bool :=
  match p, s with
  | EmptyString, _ => true
  | String a p', String b s' => Ascii.eqb a b && prefix_of p' s'
  | String _ _, EmptyString => false
  end.

(** [sub in s] *)
Fixpoint contains (sub s : string) : bool :=
  prefix_of sub s ||
  match s with
  | EmptyString => false
  | String _ s' => contains sub s'
  end.

(** [re.sub(r'\s+', ' ', t)]: every maximal run of whitespace becomes one
    space. [in_run] tells that the previous character was whitespace. *)
Fixpoint collapse_ws (in_run : bool) (t : string) : string :=
  match t with
  | EmptyString => EmptyString
  | String c r =>
      if is_space c
      then if in_run then collapse_ws true r
           else String " " (collapse_ws true r)
      else String c (collapse_ws false r)
  end.

Fixpoint lstrip (t : string) : string :=
  match t with
  | EmptyString => EmptyString
  | String c r => if is_space c then lstrip r else t
  end.

Fixpoint rstrip (t : string) : string :=
  match t with
  | EmptyString => EmptyString
  | String c r =>
      match rstrip r with
      | EmptyString => if is_space c then EmptyString else String c EmptyString
      | r' => String c r'
      end
  end.

Definition strip (t : string) : string := rstrip (lstrip t).

(** Every character of [s] satisfies [f]. *)
Fixpoint all_chars (f : ascii -> bool) (s : string) : bool :=
  match s with
  | EmptyString => true
  | String c r => f c && all_chars f r
  end.

(** [normalize(t)] of [extract_current_classes] *)
Definition normalize (t : string) : string := strip (collapse_ws false t).

End Text.

(** ** Regular expressions *)

Module Re.
Import Text.

Inductive cclass : Type :=
| Space   (* \s *)
| Digit.  (* \d *)

Inductive regex : Type :=
| Void
| Eps
| Lit (c : ascii)
| Cls (k : cclass)
| Cat (r1 r2 : regex)
| Alt (r1 r2 : regex)
| Star (r : regex).

Definition in_class (k : cclass) (c : ascii) : bool :=
  match k with
  | Space => is_space c
  | Digit => is_digit c
  end.

(** A literal of the pattern against a character of the subject; under
    [re.IGNORECASE] both are compared in lower case. *)
Definition lit_ok (ignorecase : bool) (p c : ascii) : bool :=
  if ignorecase then Ascii.eqb (lower_char p) (lower_char c)
  else Ascii.eqb p c.

(** The strings a regex matches in full. *)
Inductive matches (ic : bool) : regex -> string -> Prop :=
| MEps : matches ic Eps ""
| MLit p c : lit_ok ic p c = true -> matches ic (Lit p) (String c "")
| MCls k c : in_class k c = true -> matches ic (Cls k) (String c "")
| MCat r1 r2 s1 s2 :
    matches ic r1 s1 -> matches ic r2 s2 -> matches ic (Cat r1 r2) (s1 ++ s2)
| MAltL r1 r2 s : matches ic r1 s -> matches ic (Alt r1 r2) s
| MAltR r1 r2 s : matches ic r2 s -> matches ic (Alt r1 r2) s
| MStar0 r : matches ic (Star r) ""
| MStarS r s1 s2 :
    matches ic r s1 -> matches ic (Star r) s2 -> matches ic (Star r) (s1 ++ s2).

Fixpoint nullable (r : regex) : bool :=
  match r with
  | Void => false
  | Eps => true
  | Lit _ => false
  | Cls _ => false
  | Cat r1 r2 => nullable r1 && nullable r2
  | Alt r1 r2 => nullable r1 || nullable r2
  | Star _ => true
  end.

Fixpoint deriv (ic : bool) (c : ascii) (r : regex) : regex :=
  match r with
  | Void => Void
  | Eps => Void
  | Lit p => if lit_ok ic p c then Eps else Void
  | Cls k => if in_class k c then Eps else Void
  | Cat r1 r2 =>
      if nullable r1
      then Alt (Cat (deriv ic c r1) r2) (deriv ic c r2)
      else Cat (deriv ic c r1) r2
  | Alt r1 r2 => Alt (deriv ic c r1) (deriv ic c r2)
  | Star r1 => Cat (deriv ic c r1) (Star r1)
  end.

(** Does some prefix of [s] match [r]? ([re.match] as a truth value) *)
Fixpoint match_here (ic : bool) (r : regex) (s : string) : bool :=
  nullable r ||
  match s with
  | EmptyString => false
  | String c s' => match_here ic (deriv ic c r) s'
  end.

(** Does some substring of [s] match [r]? ([re.search] as a truth value) *)
Fixpoint search (ic : bool) (r : regex) (s : string) : bool :=
  match_here ic r s ||
  match s with
  | EmptyString => false
  | String _ s' => search ic r s'
  end.

(** Pattern syntax *)

Fixpoint lits (s : string) : regex :=
  match s with
  | EmptyString => Eps
  | String c EmptyString => Lit c
  | String c r => Cat (Lit c) (lits r)
  end.

Definition opt (r : regex) : regex := Alt r Eps.

(** [r{n}] *)
Fixpoint times (n : nat) (r : regex) : regex :=
  match n with
  | 0 => Eps
  | S n' => Cat r (times n' r)
  end.

(** at most [n] copies of [r] *)
Fixpoint upto (n : nat) (r : regex) : regex :=
  match n with
  | 0 => Eps
  | S n' => opt (Cat r (upto n' r))
  end.

(** [r{lo,hi}] *)
Definition rep (lo hi : nat) (r : regex) : regex :=
  Cat (times lo r) (upto (hi - lo) r).

End Re.

(** ** The parsed page *)

Module Dom.
Import Text.

(** What [BeautifulSoup(html_content, 'html.parser')] hands back: text nodes
    and tags, a tag carrying its name, the value of its [class] attribute
    as a list (empty when absent) and its children. *)
#[warnings="-register-all"]
Inductive node : Type :=
| Txt (s : string)
| Tag (name : string) (class : list string) (children : list node).

(** The contents of the soup object itself. *)
Definition document : Type := list node.

(** [node.get_text()]: all text below the node, concatenated. *)
Fixpoint get_text (n : node) : string :=
  match n with
  | Txt s => s
  | Tag _ _ cs => String.concat "" (map get_text cs)
  end.

(** [soup.get_text()] *)
Definition soup_text (d : document) : string :=
  String.concat "" (map get_text d).

(** The tags below (and including) a node, in document order. *)
Fixpoint tags_of (n : node) : list node :=
  match n with
  | Txt _ => []
  | Tag _ _ cs => n :: flat_map tags_of cs
  end.

(** All tags of the page in document order. *)
Definition tags (d : document) : list node := flat_map tags_of d.

(** A tag together with its position in document order: the identity of
    the Python object. *)
Definition element : Type := (nat * node)%type.

(** [ts] numbered from position [k] on. *)
Definition number_from (k : nat) (ts : list node) : list element :=
  combine (seq k (length ts)) ts.

Definition number (ts : list node) : list element := number_from 0 ts.

Definition elements (d : document) : list element := number (tags d).

(** [element.name] *)
Definition name_of (n : node) : string :=
  match n with
  | Txt _ => ""
  | Tag nm _ _ => nm
  end.

(** [element.get("class", [])] *)
Definition class_of (n : node) : list string :=
  match n with
  | Txt _ => []
  | Tag _ cls _ => cls
  end.

(** [x in xs] on a list of strings *)
Definition mem (x : string) (xs : list string) : bool :=
  existsb (String.eqb x) xs.

(** [soup.find_all(name, class_=cls)] *)
Definition find_all (name cls : string) (d : document) : list element :=
  filter (fun e => String.eqb (name_of (snd e)) name && mem cls (class_of (snd e)))
         (elements d).

(** [start.find_all_next()]: every tag after [start] in document order,
    its own descendants included. *)
Definition find_all_next (start : element) (d : document) : list element :=
  skipn (S (fst start)) (elements d).

End Dom.

(** ** extract_current_classes *)

Module Extract.
Import Text Re Dom.

(** r"Wintersemester\s*2025/26" *)
Definition exact_term : regex :=
  Cat (lits "Wintersemester") (Cat (Star (Cls Space)) (lits "2025/26")).

(** r"(Wintersemester|Sommersemester)\s*\d{4}(/\d{2})?" *)
Definition generic_term : regex :=
  Cat (Alt (lits "Wintersemester") (lits "Sommersemester"))
      (Cat (Star (Cls Space))
           (Cat (times 4 (Cls Digit))
                (opt (Cat (Lit "/") (times 2 (Cls Digit)))))).

Definition target_patterns : list regex := [exact_term; generic_term].

(** r'\d{4,6}' *)
Definition id_pattern : regex := rep 4 6 (Cls Digit).

Definition header_text (h : element) : string := normalize (get_text (snd h)).

(** [re.search(p, txt, re.IGNORECASE)] on a header *)
Definition header_matches (p : regex) (h : element) : bool :=
  search true p (header_text h).

(** The inner loop over [all_headers] for one pattern: the first header
    whose normalized text matches. *)
Fixpoint first_header (p : regex) (all_headers : list element)
  : option element :=
  match all_headers with
  | [] => None
  | header :: rest =>
      if header_matches p header then Some header else first_header p rest
  end.

(** The outer loop over the patterns; it leaves at the first pattern
    that set [start_node]. *)
Fixpoint find_start_node (patterns : list regex) (all_headers : list element)
  : option element :=
  match patterns with
  | [] => None
  | p :: rest =>
      match first_header p all_headers with
      | Some start_node => Some start_node
      | None => find_start_node rest all_headers
      end
  end.

(** [element.name == "div" and "Leistungen_Inhalt" in element.get("class", [])] *)
Definition is_header_div (n : node) : bool :=
  String.eqb (name_of n) "div" && mem "Leistungen_Inhalt" (class_of n).

Definition is_anchor (n : node) : bool := String.eqb (name_of n) "a".

(** The loop over [start_node.find_all_next()]: it breaks at the next
    header div and keeps the [a] tags met before. *)
Fixpoint collect_links (following : list element) : list element :=
  match following with
  | [] => []
  | e :: rest =>
      if is_header_div (snd e) then []
      else if is_anchor (snd e) then e :: collect_links rest
      else collect_links rest
  end.

Definition junk : list string :=
  ["Tag"; "Zeit"; "Rhythmus"; "Dauer"; "Raum"; "Lehrperson"; "Hinweis";
   "Belegungsinformation"; "findet statt"; "Belegungs-"; "PDF";
   "Stundenplan"; "Anmelden"; "Login"; "Abmelden"].

Definition link_text (link : element) : string := normalize (get_text (snd link)).

(** [is_candidate] after "Logic A" and before the junk filters. *)
Definition has_id (text : string) : bool :=
  let is_candidate := false in
  if search false id_pattern text then true else is_candidate.

(** [any(j.lower() in link_text.lower() for j in junk)] *)
Definition has_junk (text : string) : bool :=
  existsb (fun j => contains (lower j) (lower text)) junk.

(** [is_candidate] when the dedup test is reached. *)
Definition is_candidate (text : string) : bool :=
  let is_candidate := has_id text in
  let is_candidate := if has_junk text then false else is_candidate in
  let is_candidate := if String.length text <? 5 then false else is_candidate in
  is_candidate.

(** The loop over [candidate_links], threading [classes] and
    [seen_names]; the set [seen_names] is kept as the list of its
    members and only asked for membership. *)
Fixpoint process (links : list element) (classes seen_names : list string)
  : list string :=
  match links with
  | [] => classes
  | link :: rest =>
      let text := link_text link in
      if is_candidate text then
        if negb (mem text seen_names)
        then process rest (classes ++ [text]) (text :: seen_names)
        else process rest classes seen_names
      else process rest classes seen_names
  end.

Definition classify (candidate_links : list element) : list string :=
  process candidate_links [] [].

Definition _legacy_extract (soup : document) : list string :=
  let start_marker := "Aktuelle Veranstaltungen:" in
  let text := normalize (soup_text soup) in
  if negb (contains start_marker text) then [] else [].

Definition all_headers (soup : document) : list element :=
  find_all "div" "Leistungen_Inhalt" soup.

Definition candidate_links (start_node : element) (soup : document)
  : list element :=
  collect_links (find_all_next start_node soup).

Definition extract_current_classes (soup : document) : list string :=
  match find_start_node target_patterns (all_headers soup) with
  | None =>
      if contains "Aktuelle Veranstaltungen" (soup_text soup)
      then _legacy_extract soup
      else []
  | Some start_node => classify (candidate_links start_node soup)
  end.

(** *** Notions the properties are stated with *)

(** In the specification's words, the text "contains a numeric token of
    [lo] to [hi] digits": somewhere in it stand [lo] to [hi] consecutive
    digits. The run need not be maximal, as the pattern has no boundary
    on either side. *)
Definition contains_digit_token (lo hi : nat) (text : string) : Prop :=
  exists a d b,
    text = (a ++ d ++ b)%string /\
    lo <= String.length d <= hi /\ all_chars is_digit d = true.

(** [h] is the first header of [headers], in their order, that matches [p]. *)
Definition is_first_match (p : regex) (headers : list element) (h : element)
  : Prop :=
  exists before after,
    headers = before ++ h :: after /\
    header_matches p h = true /\
    forall x, In x before -> header_matches p x = false.

(** The first occurrence of each text not seen before. *)
Fixpoint keep_first (seen texts : list string) : list string :=
  match texts with
  | [] => []
  | t :: rest =>
      if mem t seen then keep_first seen rest
      else t :: keep_first (t :: seen) rest
  end.

End Extract.

(** ** Sample pages *)

Module Sample.
Import Dom.

Definition header (t : string) : node := Tag "div" ["Leistungen_Inhalt"] [Txt t].
Definition anchor (t : string) : node := Tag "a" [] [Txt t].
Definition row (n : node) : node := Tag "tr" [] [Tag "td" [] [n]].

(** Two term sections, the links of the first in table cells. *)
Definition winter : node := header "Wintersemester 2025/26".
Definition summer : node := header "Sommersemester 2025".
Definition winter_rows : node :=
  Tag "table" []
    [ row (anchor "Algorithmen 12345");
      row (anchor "Raum 101");
      row (anchor "Grundlagen der Informatik 54321") ].
Definition summer_rows : node :=
  Tag "table" [] [ row (anchor "Datenbanken 40404") ].
Definition body : node :=
  Tag "body" [] [winter; winter_rows; summer; summer_rows].
Definition page : document := [ Tag "html" [] [body] ].

(** Three term sections; the middle one is the expected term. *)
Definition h1 : node := header "Sommersemester 2025".
Definition h2 : node := header "  Wintersemester
  2025/26 ".
Definition h3 : node := header "Sommersemester 2026".
Definition old_link : node := anchor "Logik 11111".
Definition item : node := Tag "li" [] [anchor "Algorithmen 12345"].
Definition note : node := Tag "li" [] [Txt "kein Link"].
Definition items : node := Tag "ul" [] [item; note].
Definition new_link : node := anchor "Datenbanken 40404".
Definition three_terms : document := [h1; old_link; h2; items; h3; new_link].

(** One header in lower case. *)
Definition small_header : node := header "wintersemester 2025/26".
Definition small_page : document := [small_header; anchor "Algorithmen 12345"].

(** No term header at all. *)
Definition plain_page : document :=
  [ Tag "div" ["Leistungen_Inhalt"] [Txt "Meine Veranstaltungen"];
    anchor "Algorithmen 12345" ].

End Sample.

(** ** The browser session and the effects of the scraper *)

Module Session.
Import Text Dom.

(** A raised Python object: one caught by [except Exception], or one that
    only a bare [except:] catches (KeyboardInterrupt and the like). *)
Inductive exn : Type :=
| PyException (msg : string)
| PyBaseException (msg : string).

Inductive outcome (A : Type) : Type :=
| Ok (a : A)
| Raise (e : exn).
Arguments Ok {A} a.
Arguments Raise {A} e.

Inductive By : Type := ID | NAME | CSS_SELECTOR | PARTIAL_LINK_TEXT.

Definition locator : Type := (By * string)%type.

(** The four conditions handed to [self.wait.until]. *)
Inductive wait_cond : Type :=
| UntilLoginState      (* login, line 25 *)
| UntilSsoOrPortal     (* _inject_sso_credentials, line 80 *)
| UntilOtpOrPortal     (* _inject_sso_credentials, line 136 *)
| UntilPortalUrl.      (* EC.url_contains("lsf.tu-dortmund.de"), line 163 *)

(** The body of each condition, on the driver's URL and page source. *)
Definition cond_holds (c : wait_cond) (current_url page_source : string) : bool :=
  match c with
  | UntilLoginState =>
      contains "sso.itmc" current_url || contains "Abmelden" page_source
      || contains "Anmelden" page_source || contains "Login" page_source
  | UntilSsoOrPortal =>
      contains "sso.itmc" current_url || contains "lsf.tu-dortmund.de" current_url
  | UntilOtpOrPortal =>
      contains "token" (lower page_source) || contains "otp" (lower page_source)
      || contains "lsf.tu-dortmund.de" current_url
  | UntilPortalUrl => contains "lsf.tu-dortmund.de" current_url
  end.

(** The collaborators: the Selenium driver and its elements, the explicit
    wait, the one-time-password generator, the debug directory and files,
    the HTML parser, and the two methods inherited from [BossScraper]
    ([_setup_driver], [_fetch_page_via_requests]). Every call may change
    the world and may raise. *)
Class Browser (W El : Type) : Type := {
  drv_get : string -> W -> outcome unit * W;
  drv_current_url : W -> outcome string * W;
  drv_page_source : W -> outcome string * W;
  drv_find_element : locator -> W -> outcome El * W;
  drv_save_screenshot : string -> W -> outcome unit * W;
  drv_quit : W -> outcome unit * W;
  el_is_displayed : El -> W -> outcome bool * W;
  el_clear : El -> W -> outcome unit * W;
  el_send_keys : El -> string -> W -> outcome unit * W;
  el_click : El -> W -> outcome unit * W;
  el_submit : El -> W -> outcome unit * W;
  wait_until : wait_cond -> W -> outcome unit * W;
  totp_now : string -> W -> outcome string * W;
  debug_base_path : string -> W -> outcome string * W;
  file_open : string -> W -> outcome unit * W;
  file_write : string -> string -> W -> outcome unit * W;
  (* takes and returns whether [self.driver] is set *)
  setup_driver : bool -> W -> outcome unit * (bool * W);
  fetch_page_via_requests : string -> W -> outcome (option string) * W;
  parse_html : string -> document
}.

(** A call made on a collaborator. *)
Inductive event (El : Type) : Type :=
| CallSetupDriver
| CallGet (url : string)
| CallCurrentUrl
| CallPageSource
| CallFindElement (l : locator)
| CallSaveScreenshot (path : string)
| CallQuit
| CallIsDisplayed (el : El)
| CallClear (el : El)
| CallSendKeys (el : El) (keys : string)
| CallClick (el : El)
| CallSubmit (el : El)
| CallWaitUntil (c : wait_cond)
| CallTotpNow
| CallDebugBasePath (prefix : string)
| CallFileOpen (path : string)
| CallFileWrite (path content : string)
| CallFetch (url : string).
Arguments CallSetupDriver {El}.
Arguments CallGet {El} url.
Arguments CallCurrentUrl {El}.
Arguments CallPageSource {El}.
Arguments CallFindElement {El} l.
Arguments CallSaveScreenshot {El} path.
Arguments CallQuit {El}.
Arguments CallWaitUntil {El} c.
Arguments CallTotpNow {El}.
Arguments CallDebugBasePath {El} prefix.
Arguments CallFileOpen {El} path.
Arguments CallFileWrite {El} path content.
Arguments CallFetch {El} url.

(** Filling or submitting a form field. *)
Definition touches_credentials {El : Type} (e : event El) : bool :=
  match e with
  | CallClear _ | CallSendKeys _ _ | CallSubmit _ | CallClick _ => true
  | _ => false
  end.

(** The scraper object: its credentials, whether [self.driver] is set, the
    world behind the driver, and the calls made so far. *)
Record scraper (W El : Type) : Type := {
  username : string;
  password : string;
  totp_secret : option string;
  driver : bool;
  world : W;
  trace : list (event El)
}.

Definition lsf_url : string :=
  "https://www.lsf.tu-dortmund.de/qisserver/rds?state=wscheck&wscheck=leistungen&navigationPosition=functions%2CmyLecturesWScheck&breadcrumb=myLectures&topitem=functions&subitem=myLecturesWScheck".

(** The result dictionary of [get_current_classes]. *)
Inductive result : Type :=
| Success (current_classes : list string)
    (* {"success": True, "current_classes": [{"name": n}, ...]} *)
| Failure (error : string).
    (* {"success": False, "error": error} *)

Section Methods.
Context {W El : Type} `{Browser W El}.

Definition M (A : Type) : Type := scraper W El -> outcome A * scraper W El.

Definition ret {A : Type} (a : A) : M A := fun s => (Ok a, s).

Definition bind {A B : Type} (m : M A) (k : A -> M B) : M B :=
  fun s =>
    match m s with
    | (Ok a, s') => k a s'
    | (Raise e, s') => (Raise e, s')
    end.

Definition raise {A : Type} (e : exn) : M A := fun s => (Raise e, s).

(** try: body / except: handler *)
Definition try_except {A : Type} (body : M A) (handler : M A) : M A :=
  fun s =>
    match body s with
    | (Ok a, s') => (Ok a, s')
    | (Raise _, s') => handler s'
    end.

(** try: body / except Exception as e: handler (str e) *)
Definition try_except_Exception {A : Type} (body : M A) (handler : string -> M A)
  : M A :=
  fun s =>
    match body s with
    | (Raise (PyException msg), s') => handler msg s'
    | (r, s') => (r, s')
    end.

(** try: body / finally: cleanup *)
Definition try_finally {A : Type} (body : M A) (cleanup : M unit) : M A :=
  fun s =>
    match body s with
    | (r, s') =>
        match cleanup s' with
        | (Ok _, s'') => (r, s'')
        | (Raise e, s'') => (Raise e, s'')
        end
    end.

Definition record_call (ev : event El) (s : scraper W El) (w : W) : scraper W El :=
  {| username := username s; password := password s;
     totp_secret := totp_secret s; driver := driver s;
     world := w; trace := trace s ++ [ev] |}.

(** A call on a collaborator that is not reached through [self.driver]. *)
Definition call {A : Type} (ev : event El) (op : W -> outcome A * W) : M A :=
  fun s => let (r, w) := op (world s) in (r, record_call ev s w).

(** [self.driver.<attr>]: an AttributeError while [self.driver] is None. *)
Definition on_driver {A : Type} (attr : string) (ev : event El)
           (op : W -> outcome A * W) : M A :=
  fun s =>
    if driver s then call ev op s
    else (Raise (PyException
                   ("'NoneType' object has no attribute '" ++ attr ++ "'")%string),
          s).

Definition get_self {A : Type} (f : scraper W El -> A) : M A :=
  fun s => (Ok (f s), s).

End Methods.

Declare Scope py_scope.
Delimit Scope py_scope with py.
Notation "x <- m ;; k" := (bind m (fun x => k))
  (at level 61, m at next level, right associativity) : py_scope.
Notation "m ;;; k" := (bind m (fun _ => k))
  (at level 61, right associativity) : py_scope.

End Session.

(** ** LsfScraper *)

Module LsfScraper.
Import Text Dom Session.
Local Open Scope py_scope.

Section Methods.
Context {W El : Type} `{Browser W El}.

#[local] Abbreviation M := (@Session.M W El).

(** *** Calls on the collaborators *)

Definition driver_get (url : string) : M unit :=
  on_driver "get" (CallGet url) (drv_get url).
Definition driver_current_url : M string :=
  on_driver "current_url" CallCurrentUrl drv_current_url.
Definition driver_page_source : M string :=
  on_driver "page_source" CallPageSource drv_page_source.
Definition driver_find_element (l : locator) : M El :=
  on_driver "find_element" (CallFindElement l) (drv_find_element l).
Definition driver_save_screenshot (path : string) : M unit :=
  on_driver "save_screenshot" (CallSaveScreenshot path) (drv_save_screenshot path).
Definition driver_quit : M unit := on_driver "quit" CallQuit drv_quit.

Definition is_displayed (el : El) : M bool :=
  call (CallIsDisplayed el) (el_is_displayed el).
Definition clear (el : El) : M unit := call (CallClear el) (el_clear el).
Definition send_keys (el : El) (keys : string) : M unit :=
  call (CallSendKeys el keys) (el_send_keys el keys).
Definition click (el : El) : M unit := call (CallClick el) (el_click el).
Definition submit (el : El) : M unit := call (CallSubmit el) (el_submit el).

Definition wait (c : wait_cond) : M unit := call (CallWaitUntil c) (wait_until c).

Definition _setup_driver : M unit :=
  fun s =>
    match setup_driver (driver s) (world s) with
    | (r, (d, w)) =>
        (r, {| username := username s; password := password s;
               totp_secret := totp_secret s; driver := d; world := w;
               trace := trace s ++ [CallSetupDriver] |})
    end.

Definition _fetch_page_via_requests (url : string) : M (option string) :=
  call (CallFetch url) (fetch_page_via_requests url).

(** *** The strategy loops *)

(** for strategy in strategies:
      try: el = find_element(strategy); if el.is_displayed(): field = el; break
      except: continue *)
Fixpoint first_displayed (strategies : list locator) : M (option El) :=
  match strategies with
  | [] => ret None
  | strategy :: rest =>
      found <- try_except
                 (el <- driver_find_element strategy ;;
                  shown <- is_displayed el ;;
                  ret (if shown then Some el else None))
                 (ret None) ;;
      match found with
      | Some el => ret (Some el)
      | None => first_displayed rest
      end
  end.

(** for text in texts:
      try: login_btn = find_element(PARTIAL_LINK_TEXT, text); if login_btn: break
      except: continue *)
Fixpoint first_link (texts : list string) : M (option El) :=
  match texts with
  | [] => ret None
  | text :: rest =>
      found <- try_except
                 (login_btn <- driver_find_element (PARTIAL_LINK_TEXT, text) ;;
                  ret (Some login_btn))
                 (ret None) ;;
      match found with
      | Some login_btn => ret (Some login_btn)
      | None => first_link rest
      end
  end.

Definition user_strategies : list locator :=
  [(ID, "username"); (NAME, "j_username"); (CSS_SELECTOR, "input#idToken1");
   (CSS_SELECTOR, "input[type='text']")].

Definition pass_strategies : list locator :=
  [(ID, "password"); (NAME, "j_password"); (CSS_SELECTOR, "input#idToken2");
   (CSS_SELECTOR, "input[type='password']")].

Definition submit_strategies : list locator :=
  [(NAME, "_eventId_proceed"); (ID, "loginButton_0");
   (CSS_SELECTOR, "button[type='submit']"); (CSS_SELECTOR, "input[type='submit']")].

Definition token_strategies : list locator :=
  [(ID, "token"); (NAME, "otp"); (CSS_SELECTOR, "input[inputmode='numeric']")].

(** *** _dump_debug_info *)

Definition _dump_debug_info (prefix : string) : M unit :=
  have_driver <- get_self (@driver W El) ;;
  if negb have_driver then ret tt
  else
    try_except_Exception
      (base_path <- call (CallDebugBasePath prefix) (debug_base_path prefix) ;;
       driver_save_screenshot (base_path ++ ".png") ;;;
       call (CallFileOpen (base_path ++ ".html")) (file_open (base_path ++ ".html")) ;;;
       source <- driver_page_source ;;
       call (CallFileWrite (base_path ++ ".html") source)
            (file_write (base_path ++ ".html") source))
      (fun _ => ret tt).

(** *** _inject_sso_credentials *)

(** 1. Wait for SSO or target; tells whether the session is already
    authenticated (lines 80-83). *)
Definition inject_wait : M bool :=
  wait UntilSsoOrPortal ;;;
  url <- driver_current_url ;;
  if contains "lsf.tu-dortmund.de" url
  then source <- driver_page_source ;; ret (contains "Abmelden" source)
  else ret false.

(** 2. Username strategy (lines 86-100). *)
Definition inject_username : M unit :=
  user_field <- first_displayed user_strategies ;;
  match user_field with
  | None =>
      _dump_debug_info "lsf_login_no_user" ;;;
      raise (PyException "Username field not found")
  | Some user_field =>
      clear user_field ;;;
      name <- get_self (@username W El) ;;
      send_keys user_field name
  end.

(** 3. Password strategy (lines 103-116). *)
Definition inject_password : M El :=
  pass_field <- first_displayed pass_strategies ;;
  match pass_field with
  | None => raise (PyException "Password field not found")
  | Some pass_field =>
      clear pass_field ;;;
      pw <- get_self (@password W El) ;;
      send_keys pass_field pw ;;;
      ret pass_field
  end.

(** 4. Submit strategy (lines 119-131). *)
Definition inject_submit (pass_field : El) : M unit :=
  submit_btn <- first_displayed submit_strategies ;;
  match submit_btn with
  | Some submit_btn => click submit_btn
  | None => submit pass_field
  end.

(** 5. Handle 2FA, the body of the inner [try] (lines 136-159). *)
Definition inject_2fa : M unit :=
  wait UntilOtpOrPortal ;;;
  source <- driver_page_source ;;
  asked <- (if contains "token" (lower source) then ret true
            else source' <- driver_page_source ;;
                 ret (contains "otp" (lower source'))) ;;
  secret <- get_self (@totp_secret W El) ;;
  match (if asked then secret else None) with
  | None | Some EmptyString => ret tt
  | Some secret =>
      token <- call CallTotpNow (totp_now secret) ;;
      token_field <- first_displayed token_strategies ;;
      match token_field with
      | None => ret tt
      | Some token_field =>
          send_keys token_field token ;;;
          try_except
            (btn <- driver_find_element (NAME, "_eventId_proceed") ;; click btn)
            (btn <- driver_find_element (CSS_SELECTOR, "button[type='submit']") ;;
             click btn)
      end
  end.

Definition _inject_sso_credentials : M bool :=
  try_except_Exception
    (resumed <- inject_wait ;;
     if resumed then ret true
     else
       inject_username ;;;
       pass_field <- inject_password ;;
       inject_submit pass_field ;;;
       try_except inject_2fa (ret tt) ;;;
       (* 6. Final success check *)
       wait UntilPortalUrl ;;;
       ret true)
    (fun _ =>
       _dump_debug_info "lsf_injection_fail" ;;;
       ret false).

(** *** login *)

(** Lines 17-34: navigate, wait (a timeout is ignored), read the URL and
    the page; [None] when the session is resumed, else the URL read. *)
Definition check_session : M (option string) :=
  driver_get lsf_url ;;;
  try_except (wait UntilLoginState) (ret tt) ;;;
  current_url <- driver_current_url ;;
  page_source <- driver_page_source ;;
  if contains "lsf.tu-dortmund.de" current_url && contains "Abmelden" page_source
  then ret None
  else ret (Some current_url).

(** Lines 36-55: unless already on the SSO page, click the login link. *)
Definition open_login_form (current_url : string) : M unit :=
  if contains "sso.itmc" current_url then ret tt
  else
    try_except
      (login_btn <- first_link ["Anmelden"; "Login"; "Einloggen"] ;;
       match login_btn with
       | Some login_btn => click login_btn
       | None => ret tt
       end)
      (ret tt).

Definition login : M bool :=
  checked <- check_session ;;
  match checked with
  | None => ret true
  | Some current_url =>
      open_login_form current_url ;;;
      _inject_sso_credentials
  end.

(** *** get_current_classes *)

(** Lines 285-294: make sure the lectures page is shown, fetch it over
    HTTP and fall back to the driver's page source. *)
Definition lectures_html : M string :=
  url <- driver_current_url ;;
  (if negb (contains "state=wscheck" url) then driver_get lsf_url else ret tt) ;;;
  html <- _fetch_page_via_requests lsf_url ;;
  match html with
  | None | Some EmptyString => driver_page_source
  | Some html => ret html
  end.

Definition extract_current_classes (html_content : string) : list string :=
  Extract.extract_current_classes (parse_html html_content).

(** The body of the outer [try]. *)
Definition orchestrate : M result :=
  _setup_driver ;;;
  logged_in <- login ;;
  if negb logged_in then ret (Failure "Login failed")
  else
    html <- lectures_html ;;
    let class_names := extract_current_classes html in
    ret (Success class_names).

(** finally: if self.driver: self.driver.quit() *)
Definition release : M unit :=
  have_driver <- get_self (@driver W El) ;;
  if have_driver then driver_quit else ret tt.

Definition get_current_classes : M result :=
  try_finally
    (try_except_Exception orchestrate (fun msg => ret (Failure msg)))
    release.

(** *** Notions the properties are stated with *)

(** A computation that keeps [self.driver] as it is and only adds calls
    to the record. *)
Definition steady {A : Type} (m : M A) : Prop :=
  forall s r s', m s = (r, s') ->
    driver s' = driver s /\ exists calls, trace s' = trace s ++ calls.

(** What [login] meets on a session that is already authenticated: the
    navigation succeeds, and after the (possibly timed out) wait the URL
    read is on the portal domain and the page read shows "Abmelden".
    [s'] is the scraper after these four calls. *)
Definition already_authenticated (s s' : scraper W El) : Prop :=
  exists s1 s2 s3 url source,
    driver_get lsf_url s = (Ok tt, s1) /\
    try_except (wait UntilLoginState) (ret tt) s1 = (Ok tt, s2) /\
    driver_current_url s2 = (Ok url, s3) /\
    driver_page_source s3 = (Ok source, s') /\
    contains "lsf.tu-dortmund.de" url = true /\
    contains "Abmelden" source = true.

(** The calls [login] makes on a resumed session. *)
Definition resumed_calls : list (event El) :=
  [CallGet lsf_url; CallWaitUntil UntilLoginState; CallCurrentUrl; CallPageSource].

(** The run of [get_current_classes] from [s0] has filled the username
    field and stands at [s], before the password strategies. *)
Definition username_filled (s0 s : scraper W El) : Prop :=
  exists s1 s2 s3 s4 url,
    _setup_driver s0 = (Ok tt, s1) /\
    check_session s1 = (Ok (Some url), s2) /\
    open_login_form url s2 = (Ok tt, s3) /\
    inject_wait s3 = (Ok false, s4) /\
    inject_username s4 = (Ok tt, s).

(** The run of [get_current_classes] from [s0] has logged in and
    obtained the markup [html], and stands at [s]. *)
Definition page_obtained (s0 s : scraper W El) (html : string) : Prop :=
  exists s1 s2,
    _setup_driver s0 = (Ok tt, s1) /\
    login s1 = (Ok true, s2) /\
    lectures_html s2 = (Ok html, s).

End Methods.
End LsfScraper.

(** ** A scripted browser *)

Module Toy.
Import Text Dom Session.

(** A browser that shows one fixed page: its URL and source, the locators
    that resolve to a displayed element, and what the HTTP fetch returns. *)
Record browser : Type := {
  url : string;
  page : string;
  shown : list locator;
  fetched : option string;
  (* the URL and page that a click or a form submission leads to *)
  after_click : option (string * string);
  (* the error that navigation raises, if any *)
  down : option string
}.

Definition navigate (w : browser) : outcome unit * browser :=
  match down w with
  | Some msg => (Raise (PyException msg), w)
  | None => (Ok tt, w)
  end.

Definition By_eqb (a b : By) : bool :=
  match a, b with
  | ID, ID | NAME, NAME | CSS_SELECTOR, CSS_SELECTOR
  | PARTIAL_LINK_TEXT, PARTIAL_LINK_TEXT => true
  | _, _ => false
  end.

Definition locator_eqb (a b : locator) : bool :=
  By_eqb (fst a) (fst b) && String.eqb (snd a) (snd b).

Definition find (l : locator) (w : browser) : outcome locator * browser :=
  if existsb (locator_eqb l) (shown w) then (Ok l, w)
  else (Raise (PyException "NoSuchElementException"), w).

Definition until (c : wait_cond) (w : browser) : outcome unit * browser :=
  if cond_holds c (url w) (page w) then (Ok tt, w)
  else (Raise (PyException "TimeoutException"), w).

Definition press (w : browser) : outcome unit * browser :=
  match after_click w with
  | Some (u, p) =>
      (Ok tt, {| url := u; page := p; shown := []; fetched := fetched w;
                 after_click := None; down := down w |})
  | None => (Ok tt, w)
  end.

(** Markup is looked up among the sample pages. *)
Definition parse (html : string) : document :=
  if String.eqb html "winter" then Sample.page
  else if String.eqb html "three" then Sample.three_terms
  else if String.eqb html "plain" then Sample.plain_page
  else [Tag "p" [] [Txt html]].

#[export] Instance scripted : Browser browser locator := {|
  drv_get := fun _ => navigate;
  drv_current_url := fun w => (Ok (url w), w);
  drv_page_source := fun w => (Ok (page w), w);
  drv_find_element := find;
  drv_save_screenshot := fun _ w => (Ok tt, w);
  drv_quit := fun w => (Ok tt, w);
  el_is_displayed := fun _ w => (Ok true, w);
  el_clear := fun _ w => (Ok tt, w);
  el_send_keys := fun _ _ w => (Ok tt, w);
  el_click := fun _ => press;
  el_submit := fun _ => press;
  wait_until := until;
  totp_now := fun _ w => (Ok "123456", w);
  debug_base_path := fun prefix w => (Ok ("debug/" ++ prefix ++ "_20251103_084200")%string, w);
  file_open := fun _ w => (Ok tt, w);
  file_write := fun _ _ w => (Ok tt, w);
  setup_driver := fun _ w => (Ok tt, (true, w));
  fetch_page_via_requests := fun _ w => (Ok (fetched w), w);
  parse_html := parse
|}.

Definition fresh (w : browser) : scraper browser locator :=
  {| username := "smmuster"; password := "geheim"; totp_secret := None;
     driver := false; world := w; trace := [] |}.

(** The scraper once its driver is set up. *)
Definition running (w : browser) : scraper browser locator :=
  {| username := "smmuster"; password := "geheim"; totp_secret := None;
     driver := true; world := w; trace := [CallSetupDriver] |}.

(** The SSO form with a username field and no password field. *)
Definition sso_without_password : browser :=
  {| url := "https://sso.itmc.tu-dortmund.de/openam/XUI/#login";
     page := "<form><input id='username'></form>";
     shown := [(ID, "username")];
     fetched := None;
     after_click := None;
     down := None |}.

(** The portal of a logged-in user, showing a page without term header. *)
Definition portal_logged_in : browser :=
  {| url := lsf_url;
     page := "<a href='logout'>Abmelden</a>";
     shown := [];
     fetched := Some "plain";
     after_click := None;
     down := None |}.

(** The complete SSO form; pressing its button leads to the portal. *)
Definition sso_form : browser :=
  {| url := "https://sso.itmc.tu-dortmund.de/openam/XUI/#login";
     page := "<form><input id='username'><input id='password'></form>";
     shown := [(ID, "username"); (ID, "password"); (NAME, "_eventId_proceed")];
     fetched := Some "winter";
     after_click := Some (lsf_url, "<a href='logout'>Abmelden</a>");
     down := None |}.

(** The portal cannot be reached. *)
Definition unreachable : browser :=
  {| url := "about:blank";
     page := "";
     shown := [];
     fetched := None;
     after_click := None;
     down := Some "net::ERR_NAME_NOT_RESOLVED" |}.

End Toy.


(** ** Notions for the further properties *)

Module Shape.
Import Text.

(** Every whitespace character of [s] is a space that follows a
    non-space character, and [s] does not end in one; [after_space] tells
    that a space (or the beginning of the text) stands just before [s]. *)
Fixpoint tidy_from (after_space : bool) (s : string) : bool :=
  match s with
  | EmptyString => negb after_space
  | String c r =>
      if is_space c
      then Ascii.eqb c " " && negb after_space && tidy_from true r
      else tidy_from false r
  end.

(** Words separated by single spaces, nothing around them. *)
Definition tidy (s : string) : bool :=
  match s with
  | EmptyString => true
  | String _ _ => tidy_from true s
  end.

(** Every whitespace character of [s] is a space not preceded by one. *)
Fixpoint spaced (after_space : bool) (s : string) : bool :=
  match s with
  | EmptyString => true
  | String c r =>
      if is_space c
      then Ascii.eqb c " " && negb after_space && spaced true r
      else spaced false r
  end.

End Shape.

Module Conduct.
Import Text Dom Session LsfScraper.

Section Notions.
Context {W El : Type} `{Browser W El}.

(** The computation never ends in an exception that [except Exception]
    would catch. *)
Definition no_exception {A : Type} (m : @Session.M W El A) : Prop :=
  forall s r s', m s = (r, s') -> forall msg, r <> Raise (PyException msg).

(** The computation always returns. *)
Definition never_raises {A : Type} (m : @Session.M W El A) : Prop :=
  forall s, exists a s', m s = (Ok a, s').

(** From a scraper satisfying [Inv] the computation keeps [Inv] and only
    adds calls that [allowed] accepts. *)
Definition confined {A : Type} (Inv : scraper W El -> Prop)
           (allowed : event El -> bool) (m : @Session.M W El A) : Prop :=
  forall s r s', Inv s -> m s = (r, s') ->
    Inv s' /\ exists calls, trace s' = trace s ++ calls /\ forallb allowed calls = true.

(** An invariant that does not look at the world nor at the calls. *)
Definition call_blind (Inv : scraper W El -> Prop) : Prop :=
  forall ev s w, Inv s -> Inv (record_call ev s w).

Definition anything (s : scraper W El) : Prop := True.

(** No 2FA secret is configured. *)
Definition without_secret (s : scraper W El) : Prop :=
  totp_secret s = None \/ totp_secret s = Some EmptyString.

(** Lookups: [find_element] with one of [strategies], and [is_displayed]. *)
Definition lookup_among (strategies : list locator) (e : event El) : bool :=
  match e with
  | CallFindElement l => existsb (Toy.locator_eqb l) strategies
  | CallIsDisplayed _ => true
  | _ => false
  end.

(** The calls of a debug capture. *)
Definition capture_call (e : event El) : bool :=
  match e with
  | CallDebugBasePath _ | CallSaveScreenshot _ | CallFileOpen _
  | CallPageSource | CallFileWrite _ _ => true
  | _ => false
  end.

(** Waiting and reading the URL or the page. *)
Definition watch_call (e : event El) : bool :=
  match e with
  | CallWaitUntil _ | CallCurrentUrl | CallPageSource => true
  | _ => false
  end.

(** Any call that does not fill, click or submit. *)
Definition hands_off (e : event El) : bool := negb (touches_credentials e).

(** Any call but the HTTP fetch, the set-up and the release of the driver. *)
Definition within_login (e : event El) : bool :=
  match e with
  | CallFetch _ | CallQuit | CallSetupDriver => false
  | _ => true
  end.

(** Strategy [l], tried from [s], resolves [el]: there is a driver,
    [find_element] returns [el], and [el] answers that it is displayed.
    [s'] is the scraper after these two calls. *)
Definition resolves (l : locator) (s : scraper W El) (el : El)
           (s' : scraper W El) : Prop :=
  driver s = true /\
  exists w1 w2,
    drv_find_element l (world s) = (Ok el, w1) /\
    el_is_displayed el w1 = (Ok true, w2) /\
    s' = record_call (CallIsDisplayed el) (record_call (CallFindElement l) s w1) w2.

(** Strategy [l], tried from [s], resolves nothing: there is no driver,
    or [find_element] raises, or the element found raises or answers that
    it is not displayed. The scraper after it has the calls made. *)
Inductive misses (l : locator) (s : scraper W El) : scraper W El -> Prop :=
| misses_no_driver :
    driver s = false -> misses l s s
| misses_not_found e w1 :
    driver s = true ->
    drv_find_element l (world s) = (Raise e, w1) ->
    misses l s (record_call (CallFindElement l) s w1)
| misses_not_displayed el w1 r w2 :
    driver s = true ->
    drv_find_element l (world s) = (Ok el, w1) ->
    el_is_displayed el w1 = (r, w2) ->
    r <> Ok true ->
    misses l s (record_call (CallIsDisplayed el)
                  (record_call (CallFindElement l) s w1) w2).

(** Every strategy of the list, tried in order, resolves nothing. *)
Inductive all_miss : list locator -> scraper W El -> scraper W El -> Prop :=
| all_miss_nil s : all_miss [] s s
| all_miss_cons l rest s s1 s2 :
    misses l s s1 -> all_miss rest s1 s2 -> all_miss (l :: rest) s s2.

(** The first strategy of the list that resolves something resolves [el],
    the ones before it resolve nothing. *)
Definition first_resolves (strategies : list locator) (s : scraper W El)
           (el : El) (s' : scraper W El) : Prop :=
  exists before l after sa,
    strategies = before ++ l :: after /\
    all_miss before s sa /\
    resolves l sa el s'.

End Notions.
End Conduct.

(** ** Further sample pages and scripted browsers *)

Module MoreSamples.
Import Dom Session Toy.

(** The legacy marker and a link, no term header. *)
Definition legacy_page : document :=
  [ Tag "h2" [] [Txt "Aktuelle Veranstaltungen:"];
    Sample.anchor "Algorithmen 12345";
    Tag "h2" [] [Txt "Absolvierte Veranstaltungen:"] ].

(** A term section whose links meet every filter. *)
Definition noisy_page : document :=
  [ Sample.header "Sommersemester 2025";
    Sample.anchor "Raumfahrttechnik 12345";
    Sample.anchor "1234";
    Sample.anchor "Seminar ohne Nummer";
    Sample.anchor "Datenbanken   40404";
    Sample.anchor "Datenbanken 40404" ].

(** The SSO page without any form field. *)
Definition sso_blank : browser :=
  {| url := "https://sso.itmc.tu-dortmund.de/openam/XUI/#login";
     page := "<p>Wartung</p>";
     shown := [];
     fetched := None;
     after_click := None;
     down := None |}.

(** A page that asks for a one-time token and has a field for it. *)
Definition token_page : browser :=
  {| url := "https://sso.itmc.tu-dortmund.de/openam/XUI/#otp";
     page := "<form>Token: <input id='token'></form>";
     shown := [(ID, "token"); (NAME, "_eventId_proceed")];
     fetched := None;
     after_click := Some (lsf_url, "<a href='logout'>Abmelden</a>");
     down := None |}.

(** The running scraper with a 2FA secret. *)
Definition with_secret (w : browser) : scraper browser locator :=
  {| username := "smmuster"; password := "geheim";
     totp_secret := Some "JBSWY3DPEHPK3PXP";
     driver := true; world := w; trace := [CallSetupDriver] |}.

End MoreSamples.

(** ** The claims as they are worded, where the code differs *)

Module Worded.
Import Text Re Dom Extract.

(** "A node carrying the header marker class": any tag, div or not. *)
Definition carries_marker (n : node) : bool :=
  mem "Leistungen_Inhalt" (class_of n).

(** The walk that ends at the next node carrying the marker class. *)
Fixpoint collect_until_marker (following : list element) : list element :=
  match following with
  | [] => []
  | e :: rest =>
      if carries_marker (snd e) then []
      else if is_anchor (snd e) then e :: collect_until_marker rest
      else collect_until_marker rest
  end.

(** "The anchors strictly after H2 and strictly before H3": the tags of
    the header itself are passed over, and the walk ends at the next node
    carrying the marker class. *)
Definition links_as_worded (start : element) (soup : document) : list element :=
  collect_until_marker
    (skipn (fst start + length (tags_of (snd start))) (elements soup)).

(** The lengths of the numbers of a text, a number being a run of digits
    with no digit before or after it; [run] counts the digits of the
    number being read. *)
Fixpoint numbers_of (run : nat) (s : string) : list nat :=
  match s with
  | EmptyString => if run =? 0 then [] else [run]
  | String c r =>
      if is_digit c then numbers_of (S run) r
      else (if run =? 0 then [] else [run]) ++ numbers_of 0 r
  end.

(** "Contains a numeric token of [lo] to [hi] digits": one of the numbers
    of the text has between [lo] and [hi] digits. *)
Definition has_numeric_token (lo hi : nat) (text : string) : bool :=
  existsb (fun n => (lo <=? n) && (n <=? hi)) (numbers_of 0 text).

(** Some spelling of the header's text in other letter case is matched by
    the pattern as it is written. *)
Definition matches_in_some_case (p : regex) (h : element) : Prop :=
  exists t, lower t = lower (header_text h) /\ search false p t = true.

(** [h] is the first of [headers], in their order, with the property. *)
Definition first_such (P : element -> Prop) (headers : list element)
           (h : element) : Prop :=
  exists before after,
    headers = before ++ h :: after /\ P h /\
    forall x, In x before -> ~ P x.

End Worded.

Module EdgeSamples.
Import Dom Session Toy.

(** A term header that holds a link itself, and a table cell that carries
    the marker class inside the section. *)
Definition linked_header : node :=
  Tag "div" ["Leistungen_Inhalt"]
    [Txt "Wintersemester 2025/26 "; Sample.anchor "Semesterplan 20252"].
Definition marked_cell : node :=
  Tag "td" ["Leistungen_Inhalt"] [Txt "Hinweise"].
Definition marked_page : document :=
  [ linked_header;
    Sample.anchor "Algorithmen 12345";
    marked_cell;
    Sample.anchor "Logik 11111";
    Sample.header "Sommersemester 2025";
    Sample.anchor "Datenbanken 40404" ].

(** Two term headers in unusual letter case; the later one is the
    expected term. *)
Definition small_summer : node := Sample.header "sommersemester 2025".
Definition capital_winter : node := Sample.header "WINTERSEMESTER 2025/26".
Definition mixed_case_page : document :=
  [ small_summer; Sample.anchor "Logik 11111";
    capital_winter; Sample.anchor "Algorithmen 12345" ].

(** A portal that is on the portal domain and asks for credentials on its
    own page, without the "Abmelden" marker. *)
Definition portal_without_marker : browser :=
  {| url := lsf_url;
     page := "<form><input type='text'><input type='password'></form>";
     shown := [(CSS_SELECTOR, "input[type='text']");
               (CSS_SELECTOR, "input[type='password']")];
     fetched := None;
     after_click := None;
     down := None |}.

(** The SSO form; pressing its button leads to a portal page that does not
    show the marker. *)
Definition sso_to_bare_portal : browser :=
  {| url := "https://sso.itmc.tu-dortmund.de/openam/XUI/#login";
     page := "<form><input id='username'><input id='password'></form>";
     shown := [(ID, "username"); (ID, "password"); (NAME, "_eventId_proceed")];
     fetched := None;
     after_click := Some (lsf_url, "<h1>Willkommen</h1>");
     down := None |}.

End EdgeSamples.

(* ===================================================================== *)
(** * Part II. Properties *)
(* ===================================================================== *)

(** ** Strings *)

Module TextFacts.
Import Text.

Lemma append_empty_r (s : string) : (s ++ "")%string = s.
Proof. induction s as [|c s IH]; simpl; [reflexivity | now rewrite IH]. Qed.

Lemma append_assoc (a b c : string) :
  ((a ++ b) ++ c)%string = (a ++ (b ++ c))%string.
Proof. induction a as [|x a IH]; simpl; [reflexivity | now rewrite IH]. Qed.

Lemma append_is_empty (a b : string) :
  (a ++ b)%string = "" -> a = "" /\ b = "".
Proof. destruct a; simpl; intros E; [auto | discriminate]. Qed.

Lemma length_append (a b : string) :
  String.length (a ++ b) = String.length a + String.length b.
Proof. induction a as [|x a IH]; simpl; [reflexivity | now rewrite IH]. Qed.

Lemma lower_append (a b : string) :
  lower (a ++ b) = (lower a ++ lower b)%string.
Proof. induction a as [|x a IH]; simpl; [reflexivity | now rewrite IH]. Qed.

(** A string with the lower case of [a ++ b] splits accordingly. *)
Lemma lower_split (t a b : string) :
  lower t = lower (a ++ b) ->
  exists ta tb, t = (ta ++ tb)%string /\ lower ta = lower a /\ lower tb = lower b.
Proof.
  revert t. induction a as [|x a IH]; intros t E; simpl in E.
  - exists "", t. auto.
  - destruct t as [|y t]; simpl in E; [discriminate|].
    injection E as Ey Et. destruct (IH _ Et) as (ta & tb & -> & Ea & Eb).
    exists (String y ta), tb. simpl. now rewrite Ey, Ea.
Qed.

Lemma lower_char_idem (c : ascii) : lower_char (lower_char c) = lower_char c.
Proof. destruct c as [[] [] [] [] [] [] [] []]; reflexivity. Qed.

Lemma is_space_lower (c : ascii) : is_space (lower_char c) = is_space c.
Proof. destruct c as [[] [] [] [] [] [] [] []]; reflexivity. Qed.

Lemma is_digit_lower (c : ascii) : is_digit (lower_char c) = is_digit c.
Proof. destruct c as [[] [] [] [] [] [] [] []]; reflexivity. Qed.

(** Lower-casing never turns a character into a space or a digit, nor
    out of one. *)
Lemma is_space_same_lower (c d : ascii) :
  lower_char c = lower_char d -> is_space c = is_space d.
Proof. intros E. now rewrite <- (is_space_lower c), E, is_space_lower. Qed.

Lemma is_digit_same_lower (c d : ascii) :
  lower_char c = lower_char d -> is_digit c = is_digit d.
Proof. intros E. now rewrite <- (is_digit_lower c), E, is_digit_lower. Qed.

End TextFacts.

(** ** The matcher against the matching relation *)

Module ReFacts.
Import Text Re TextFacts.

Section Matcher.
Variable ic : bool.

Lemma matches_empty_nullable r s :
  matches ic r s -> s = "" -> nullable r = true.
Proof.
  induction 1 as [ | | | r1 r2 s1 s2 _ IH1 _ IH2 | r1 r2 s _ IH | r1 r2 s _ IH
                 | | ]; intros E; simpl; try discriminate; try reflexivity.
  - apply append_is_empty in E as [E1 E2]. now rewrite IH1, IH2.
  - now rewrite IH.
  - rewrite IH by assumption. apply orb_true_r.
Qed.

Lemma nullable_matches_empty r : nullable r = true -> matches ic r "".
Proof.
  induction r as [ | | c | k | r1 IH1 r2 IH2 | r1 IH1 r2 IH2 | r IH ];
    simpl; intros N; try discriminate.
  - constructor.
  - apply andb_true_iff in N as [N1 N2].
    change "" with ("" ++ "")%string. constructor; auto.
  - apply orb_true_iff in N as [N|N]; [apply MAltL | apply MAltR]; auto.
  - constructor.
Qed.

Lemma nullable_spec r : nullable r = true <-> matches ic r "".
Proof.
  split; [apply nullable_matches_empty|].
  intros Hm. now apply (matches_empty_nullable Hm).
Qed.

(** The derivative matches what is left after its character. *)
Lemma deriv_sound c r : forall s,
  matches ic (deriv ic c r) s -> matches ic r (String c s).
Proof.
  induction r as [ | | p | k | r1 IH1 r2 IH2 | r1 IH1 r2 IH2 | r IH ];
    simpl; intros s Hm.
  - inversion Hm.
  - inversion Hm.
  - destruct (lit_ok ic p c) eqn:E; inversion Hm; subst. now constructor.
  - destruct (in_class k c) eqn:E; inversion Hm; subst. now constructor.
  - destruct (nullable r1) eqn:N.
    + inversion Hm as [ | | | | ? ? ? Hl | ? ? ? Hr | | ]; subst.
      * inversion Hl as [ | | | ? ? s1 s2 H1 H2 | | | | ]; subst.
        change (String c (s1 ++ s2)) with (String c s1 ++ s2)%string.
        constructor; auto.
      * change (String c s) with ("" ++ String c s)%string.
        constructor; [now apply nullable_matches_empty | auto].
    + inversion Hm as [ | | | ? ? s1 s2 H1 H2 | | | | ]; subst.
      change (String c (s1 ++ s2)) with (String c s1 ++ s2)%string.
      constructor; auto.
  - inversion Hm; subst; [apply MAltL | apply MAltR]; auto.
  - inversion Hm as [ | | | ? ? s1 s2 H1 H2 | | | | ]; subst.
    change (String c (s1 ++ s2)) with (String c s1 ++ s2)%string.
    apply MStarS; auto.
Qed.

Lemma deriv_complete r t :
  matches ic r t -> forall c s, t = String c s -> matches ic (deriv ic c r) s.
Proof.
  induction 1 as [ | p x Hp | k x Hk | r1 r2 s1 s2 H1 IH1 H2 IH2
                 | r1 r2 s0 H0 IH | r1 r2 s0 H0 IH
                 | r | r s1 s2 H1 IH1 H2 IH2 ]; intros c s E; simpl.
  - discriminate.
  - injection E as -> <-. rewrite Hp. constructor.
  - injection E as -> <-. rewrite Hk. constructor.
  - destruct s1 as [|y s1]; simpl in E.
    + rewrite (matches_empty_nullable H1 eq_refl). apply MAltR. now apply IH2.
    + injection E as -> <-.
      assert (Hc : matches ic (Cat (deriv ic c r1) r2) (s1 ++ s2))
        by (constructor; [now apply IH1 | assumption]).
      destruct (nullable r1); [now apply MAltL | assumption].
  - apply MAltL. now apply IH.
  - apply MAltR. now apply IH.
  - discriminate.
  - destruct s1 as [|y s1]; simpl in E.
    + now apply IH2.
    + injection E as -> <-. constructor; [now apply IH1 | assumption].
Qed.

Lemma deriv_spec c r s :
  matches ic (deriv ic c r) s <-> matches ic r (String c s).
Proof.
  split; [apply deriv_sound|]. intros Hm. now apply (deriv_complete Hm).
Qed.

(** [match_here] finds a matching prefix exactly when there is one. *)
Lemma match_here_spec s : forall r,
  match_here ic r s = true <->
  exists p q, s = (p ++ q)%string /\ matches ic r p.
Proof.
  induction s as [|c s IH]; intros r; simpl.
  - rewrite orb_false_r, nullable_spec. split.
    + intros Hm. exists "", "". auto.
    + intros (p & q & E & Hm). symmetry in E.
      apply append_is_empty in E as [-> _]. assumption.
  - rewrite orb_true_iff, nullable_spec, IH. split.
    + intros [Hm | (p & q & -> & Hm)].
      * exists "", (String c s). auto.
      * exists (String c p), q. split; [reflexivity | now apply deriv_spec].
    + intros (p & q & E & Hm). destruct p as [|y p]; simpl in E.
      * now left.
      * injection E as -> ->. right. exists p, q.
        split; [reflexivity | now apply deriv_spec].
Qed.

(** [search] finds a matching substring exactly when there is one. *)
Lemma search_spec r s :
  search ic r s = true <->
  exists a p q, s = (a ++ p ++ q)%string /\ matches ic r p.
Proof.
  induction s as [|c s IH].
  - change (search ic r "") with (match_here ic r "" || false).
    rewrite orb_false_r, match_here_spec. split.
    + intros (p & q & E & Hm). exists "", p, q. auto.
    + intros (a & p & q & E & Hm). symmetry in E.
      apply append_is_empty in E as [-> E]. exists p, q. auto.
  - change (search ic r (String c s))
      with (match_here ic r (String c s) || search ic r s).
    rewrite orb_true_iff, match_here_spec, IH. split.
    + intros [(p & q & E & Hm) | (a & p & q & -> & Hm)].
      * exists "", p, q. auto.
      * exists (String c a), p, q. auto.
    + intros (a & p & q & E & Hm). destruct a as [|y a]; simpl in E.
      * left. exists p, q. auto.
      * injection E as -> ->. right. exists a, p, q. auto.
Qed.

End Matcher.
End ReFacts.

(** ** What the three patterns match *)

Module PatternFacts.
Import Text Re TextFacts ReFacts Extract.

Lemma matches_cat_inv ic r1 r2 s :
  matches ic (Cat r1 r2) s ->
  exists s1 s2, s = (s1 ++ s2)%string /\ matches ic r1 s1 /\ matches ic r2 s2.
Proof. inversion 1; subst; eauto. Qed.

Lemma matches_cls_inv ic k s :
  matches ic (Cls k) s -> exists c, s = String c "" /\ in_class k c = true.
Proof. inversion 1; subst; eauto. Qed.

Lemma matches_eps_inv ic s : matches ic Eps s -> s = "".
Proof. now inversion 1. Qed.

Lemma matches_opt_inv ic r s :
  matches ic (opt r) s -> matches ic r s \/ s = "".
Proof. unfold opt. inversion 1; subst; [now left | right; now inversion H3]. Qed.

(** [\c{n}]: exactly [n] characters of the class. *)
Lemma matches_times ic k n : forall d,
  matches ic (times n (Cls k)) d <->
  String.length d = n /\ all_chars (in_class k) d = true.
Proof.
  induction n as [|n IH]; intros d; simpl.
  - split.
    + intros Hm. apply matches_eps_inv in Hm as ->. auto.
    + intros [L _]. destruct d; [constructor | discriminate].
  - split.
    + intros Hm. apply matches_cat_inv in Hm as (s1 & s2 & -> & H1 & H2).
      apply matches_cls_inv in H1 as (c & -> & Hc).
      apply IH in H2 as [L A]. simpl. now rewrite L, Hc, A.
    + intros [L A]. destruct d as [|c d]; [discriminate|].
      simpl in L, A. apply andb_true_iff in A as [Hc A].
      change (String c d) with (String c "" ++ d)%string.
      constructor; [now constructor | apply IH; split; [lia | assumption]].
Qed.

(** At most [n] characters of the class. *)
Lemma matches_upto ic k n : forall d,
  matches ic (upto n (Cls k)) d <->
  String.length d <= n /\ all_chars (in_class k) d = true.
Proof.
  induction n as [|n IH]; intros d; simpl.
  - split.
    + intros Hm. apply matches_eps_inv in Hm as ->. auto.
    + intros [L _]. destruct d; [constructor | simpl in L; lia].
  - split.
    + intros Hm. apply matches_opt_inv in Hm as [Hm | ->]; [|simpl; split; [lia|reflexivity]].
      apply matches_cat_inv in Hm as (s1 & s2 & -> & H1 & H2).
      apply matches_cls_inv in H1 as (c & -> & Hc).
      apply IH in H2 as [L A]. simpl. rewrite Hc, A. split; [lia | reflexivity].
    + intros [L A]. destruct d as [|c d]; [apply MAltR; constructor|].
      simpl in L, A. apply andb_true_iff in A as [Hc A]. apply MAltL.
      change (String c d) with (String c "" ++ d)%string.
      constructor; [now constructor | apply IH; split; [lia | assumption]].
Qed.

Lemma all_chars_append f a b :
  all_chars f (a ++ b) = all_chars f a && all_chars f b.
Proof.
  induction a as [|c a IH]; simpl; [reflexivity|].
  now rewrite IH, andb_assoc.
Qed.

(** A string of at least [n] characters splits after its first [n]. *)
Lemma split_at n : forall d,
  n <= String.length d ->
  exists d1 d2, d = (d1 ++ d2)%string /\ String.length d1 = n.
Proof.
  induction n as [|n IH]; intros d L.
  - exists "", d. auto.
  - destruct d as [|c d]; simpl in L; [lia|].
    destruct (IH d) as (d1 & d2 & -> & L1); [lia|].
    exists (String c d1), d2. simpl. auto.
Qed.

(** [\c{lo,hi}]: between [lo] and [hi] characters of the class. *)
Lemma matches_rep ic k lo hi d :
  lo <= hi ->
  (matches ic (rep lo hi (Cls k)) d <->
   lo <= String.length d <= hi /\ all_chars (in_class k) d = true).
Proof.
  intros Hle. unfold rep. split.
  - intros Hm. apply matches_cat_inv in Hm as (s1 & s2 & -> & H1 & H2).
    apply matches_times in H1 as [L1 A1]. apply matches_upto in H2 as [L2 A2].
    rewrite length_append, all_chars_append, A1, A2. split; [lia | reflexivity].
  - intros [[L1 L2] A]. destruct (split_at d L1) as (d1 & d2 & -> & Ld1).
    rewrite all_chars_append in A. apply andb_true_iff in A as [A1 A2].
    rewrite length_append in L2.
    constructor; [apply matches_times | apply matches_upto]; split; auto; lia.
Qed.

(** [re.search(r'\d{4,6}', text)] succeeds exactly on the texts that hold
    a run of four to six digits. *)
Lemma search_id_pattern text :
  search false id_pattern text = true <-> contains_digit_token 4 6 text.
Proof.
  unfold contains_digit_token, id_pattern. rewrite search_spec. split.
  - intros (a & p & q & E & Hm). apply matches_rep in Hm; [|lia].
    exists a, p, q. tauto.
  - intros (a & d & b & E & L & A). exists a, d, b. split; [assumption|].
    apply matches_rep; [lia | tauto].
Qed.

(** The upper bound does not restrict the text: any run of four digits or
    more holds one of four to six. *)
Lemma digit_token_of_long_run text :
  contains_digit_token 4 6 text <->
  exists a d b,
    text = (a ++ d ++ b)%string /\
    4 <= String.length d /\ all_chars is_digit d = true.
Proof.
  split.
  - intros (a & d & b & E & L & A). exists a, d, b. split; [|split]; tauto || lia.
  - intros (a & d & b & E & L & A).
    destruct (split_at d L) as (d1 & d2 & -> & Ld1).
    rewrite all_chars_append in A. apply andb_true_iff in A as [A1 _].
    exists a, d1, (d2 ++ b)%string. rewrite append_assoc in E.
    split; [assumption | split; [lia | assumption]].
Qed.

(** Matching under IGNORECASE only looks at the lower case of the text. *)
Lemma lit_ok_lower ic p c :
  lit_ok ic p c = true -> lower_char p = lower_char c.
Proof.
  destruct ic; simpl; intros E; apply Ascii.eqb_eq in E; congruence.
Qed.

Lemma lower_empty t : lower t = "" -> t = "".
Proof. destruct t; [reflexivity | discriminate]. Qed.

Lemma lower_single t c :
  lower t = lower (String c "") ->
  exists c', t = String c' "" /\ lower_char c' = lower_char c.
Proof.
  destruct t as [|c' t]; simpl; [discriminate|]. intros E.
  injection E as Ec Et. apply lower_empty in Et as ->. eauto.
Qed.

Lemma matches_ignorecase ic r s :
  matches ic r s -> forall t, lower t = lower s -> matches true r t.
Proof.
  induction 1 as [ | p c Hp | k c Hk | r1 r2 s1 s2 _ IH1 _ IH2
                 | r1 r2 s0 _ IH | r1 r2 s0 _ IH
                 | r | r s1 s2 _ IH1 _ IH2 ]; intros t E.
  - apply lower_empty in E as ->. constructor.
  - apply lower_single in E as (c' & -> & Ec). constructor. simpl.
    apply lit_ok_lower in Hp. apply Ascii.eqb_eq. congruence.
  - apply lower_single in E as (c' & -> & Ec). constructor.
    destruct k; simpl in *.
    + now rewrite (is_space_same_lower _ _ Ec).
    + now rewrite (is_digit_same_lower _ _ Ec).
  - apply lower_split in E as (ta & tb & -> & Ea & Eb). constructor; auto.
  - apply MAltL; auto.
  - apply MAltR; auto.
  - apply lower_empty in E as ->. constructor.
  - apply lower_split in E as (ta & tb & -> & Ea & Eb). apply MStarS; auto.
Qed.

Lemma search_ignorecase ic r s t :
  search ic r s = true -> lower t = lower s -> search true r t = true.
Proof.
  rewrite !search_spec. intros (a & p & q & -> & Hm) E.
  apply lower_split in E as (ta & tpq & -> & _ & E).
  apply lower_split in E as (tp & tq & -> & Ep & _).
  exists ta, tp, tq. split; [reflexivity|].
  now apply (matches_ignorecase Hm).
Qed.

(** Conversely, what is matched under IGNORECASE has a spelling that the
    pattern matches as it is written. *)
Lemma matches_some_case ic r s :
  matches ic r s -> exists t, lower t = lower s /\ matches false r t.
Proof.
  induction 1 as [ | p c Hp | k c Hk | r1 r2 s1 s2 _ IH1 _ IH2
                 | r1 r2 s0 _ IH | r1 r2 s0 _ IH
                 | r | r s1 s2 _ IH1 _ IH2 ].
  - exists "". split; [reflexivity | constructor].
  - exists (String p ""). split.
    + simpl. now rewrite (lit_ok_lower _ _ _ Hp).
    + constructor. simpl. apply Ascii.eqb_refl.
  - exists (String c ""). split; [reflexivity | now constructor].
  - destruct IH1 as (t1 & E1 & M1), IH2 as (t2 & E2 & M2).
    exists (t1 ++ t2)%string. rewrite !lower_append, E1, E2.
    split; [reflexivity | now constructor].
  - destruct IH as (t & E & M). exists t. split; [assumption | now apply MAltL].
  - destruct IH as (t & E & M). exists t. split; [assumption | now apply MAltR].
  - exists "". split; [reflexivity | constructor].
  - destruct IH1 as (t1 & E1 & M1), IH2 as (t2 & E2 & M2).
    exists (t1 ++ t2)%string. rewrite !lower_append, E1, E2.
    split; [reflexivity | now apply MStarS].
Qed.

Lemma search_some_case ic r s :
  search ic r s = true -> exists t, lower t = lower s /\ search false r t = true.
Proof.
  rewrite search_spec. intros (a & p & q & -> & Hm).
  apply matches_some_case in Hm as (t & E & Hm).
  exists (a ++ t ++ q)%string. split.
  - now rewrite !lower_append, E.
  - apply search_spec. eauto.
Qed.

End PatternFacts.

(** ** Lists of numbered tags *)

Module DomFacts.
Import Dom.

Lemma number_from_cons k n ts :
  number_from k (n :: ts) = (k, n) :: number_from (S k) ts.
Proof. reflexivity. Qed.

Lemma number_from_app ts1 : forall k ts2,
  number_from k (ts1 ++ ts2)
  = number_from k ts1 ++ number_from (k + length ts1) ts2.
Proof.
  induction ts1 as [|n ts1 IH]; intros k ts2; simpl.
  - now rewrite Nat.add_0_r.
  - rewrite !number_from_cons, IH. simpl. now rewrite Nat.add_succ_r.
Qed.

Lemma length_number_from ts : forall k, length (number_from k ts) = length ts.
Proof.
  induction ts as [|n ts IH]; intros k; [reflexivity|].
  rewrite number_from_cons. simpl. now rewrite IH.
Qed.

Lemma skipn_after {A : Type} (l1 : list A) x l2 n :
  n = length l1 -> skipn (S n) (l1 ++ x :: l2) = l2.
Proof. intros ->. induction l1; simpl; auto. Qed.

(** What follows the tag at position [length before]. *)
Lemma following_tags before h rest :
  skipn (S (length before)) (number (before ++ h :: rest))
  = number_from (S (length before)) rest.
Proof.
  unfold number. rewrite number_from_app, number_from_cons. simpl.
  apply skipn_after. now rewrite length_number_from.
Qed.

Lemma filter_number_from (f : node -> bool) ts : forall k,
  map snd (filter (fun e => f (snd e)) (number_from k ts)) = filter f ts.
Proof.
  induction ts as [|n ts IH]; intros k; [reflexivity|].
  rewrite number_from_cons. simpl. destruct (f n); simpl; now rewrite IH.
Qed.

Lemma in_number_from e ts : forall k,
  In e (number_from k ts) -> In (snd e) ts /\ k <= fst e < k + length ts.
Proof.
  induction ts as [|n ts IH]; intros k; [intros []|].
  rewrite number_from_cons. simpl. intros [<- | Hin].
  - simpl. split; [now left | lia].
  - apply IH in Hin as [Hin L]. split; [now right | lia].
Qed.

Lemma mem_spec x xs : mem x xs = true <-> In x xs.
Proof.
  unfold mem. rewrite existsb_exists. split.
  - intros (y & Hin & E). apply String.eqb_eq in E. now subst.
  - intros Hin. exists x. split; [assumption | apply String.eqb_refl].
Qed.

End DomFacts.

(** ** extract_current_classes *)

Module ExtractFacts.
Import Text Re Dom Extract TextFacts ReFacts PatternFacts DomFacts.

(** *** Choosing the start header *)

Lemma first_header_none p hs :
  (forall x, In x hs -> header_matches p x = false) -> first_header p hs = None.
Proof.
  induction hs as [|x hs IH]; intros Hno; simpl; [reflexivity|].
  rewrite (Hno x) by now left. apply IH. intros y Hy. apply Hno. now right.
Qed.

Lemma first_header_first_match p hs h :
  is_first_match p hs h -> first_header p hs = Some h.
Proof.
  intros (before & after & -> & Hh & Hno).
  induction before as [|x before IH]; simpl.
  - now rewrite Hh.
  - rewrite (Hno x) by now left. apply IH. intros y Hy. apply Hno. now right.
Qed.

Lemma first_match_exists p hs x :
  In x hs -> header_matches p x = true -> exists h, is_first_match p hs h.
Proof.
  induction hs as [|y hs IH]; intros Hin Hx; [destruct Hin|].
  destruct (header_matches p y) eqn:Hy.
  - exists y, [], hs. repeat split; auto. intros z [].
  - destruct Hin as [-> | Hin]; [congruence|].
    destruct (IH Hin Hx) as (h & before & after & -> & Hh & Hno).
    exists h, (y :: before), after. repeat split; auto.
    intros z [<- | Hz]; auto.
Qed.

Lemma find_start_node_none hs :
  (forall x, In x hs ->
     header_matches exact_term x = false /\ header_matches generic_term x = false) ->
  find_start_node target_patterns hs = None.
Proof.
  intros Hno. unfold target_patterns. simpl.
  rewrite !first_header_none; auto; intros x Hx; now apply Hno.
Qed.

(** C4. The patterns are tried in order. When some header matches the
    exact term, the first such header in document order is the start node,
    whatever the second pattern is; the generic pattern decides only when
    no header matches the exact term, and then its first match in document
    order is the start node; when no header matches either, there is no
    start node. *)
Theorem pattern_priority (headers : list element) :
  (forall x, In x headers -> header_matches exact_term x = true ->
     exists h, is_first_match exact_term headers h /\
               find_start_node target_patterns headers = Some h /\
               forall q, find_start_node [exact_term; q] headers = Some h)
  /\
  ((forall x, In x headers -> header_matches exact_term x = false) ->
   forall x, In x headers -> header_matches generic_term x = true ->
     exists h, is_first_match generic_term headers h /\
               find_start_node target_patterns headers = Some h)
  /\
  ((forall x, In x headers ->
      header_matches exact_term x = false /\ header_matches generic_term x = false) ->
   find_start_node target_patterns headers = None).
Proof.
  split; [|split].
  - intros x Hin Hx. destruct (first_match_exists _ _ _ Hin Hx) as (h & Hfirst).
    exists h. split; [assumption|].
    apply first_header_first_match in Hfirst.
    split; [|intros q]; simpl; now rewrite Hfirst.
  - intros Hno x Hin Hx. destruct (first_match_exists _ _ _ Hin Hx) as (h & Hfirst).
    exists h. split; [assumption|].
    unfold target_patterns. simpl.
    rewrite (first_header_none _ _ Hno).
    now rewrite (first_header_first_match Hfirst).
  - apply find_start_node_none.
Qed.

Lemma pattern_priority_witness :
  exists h,
    is_first_match exact_term (all_headers Sample.three_terms) h /\
    find_start_node target_patterns (all_headers Sample.three_terms) = Some h /\
    forall q,
      find_start_node [exact_term; q] (all_headers Sample.three_terms) = Some h.
Proof.
  apply (proj1 (pattern_priority (all_headers Sample.three_terms))
               (2, Sample.h2)).
  - right. left. reflexivity.
  - reflexivity.
Defined.

Lemma first_header_is_first_match p hs h :
  first_header p hs = Some h -> is_first_match p hs h.
Proof.
  induction hs as [|x hs IH]; simpl; [discriminate|].
  destruct (header_matches p x) eqn:Hx.
  - intros E. injection E as <-. exists [], hs. repeat split; auto.
    intros y [].
  - intros E. destruct (IH E) as (before & after & -> & Hh & Hno).
    exists (x :: before), after. repeat split; auto.
    intros y [<- | Hy]; auto.
Qed.

Lemma header_matches_some_case p h :
  header_matches p h = true <-> Worded.matches_in_some_case p h.
Proof.
  unfold header_matches, Worded.matches_in_some_case. split.
  - apply search_some_case.
  - intros (t & E & Hs). symmetry in E.
    now apply (search_ignorecase _ _ _ _ Hs).
Qed.

Lemma first_match_first_such p hs h :
  is_first_match p hs h <-> Worded.first_such (Worded.matches_in_some_case p) hs h.
Proof.
  unfold is_first_match, Worded.first_such. split.
  - intros (before & after & E & Hh & Hno). exists before, after.
    split; [assumption|]. split; [now apply header_matches_some_case|].
    intros x Hx Hm. apply header_matches_some_case in Hm.
    rewrite (Hno x Hx) in Hm. discriminate.
  - intros (before & after & E & Hh & Hno). exists before, after.
    split; [assumption|]. split; [now apply header_matches_some_case|].
    intros x Hx. destruct (header_matches p x) eqn:Hm; [|reflexivity].
    exfalso. apply (Hno x Hx). now apply header_matches_some_case.
Qed.

(** C10. Header matching ignores letter case, and nothing else: a header
    matches a pattern exactly when its normalized text, in some other
    spelling of upper and lower case, is matched by the pattern as it is
    written. So on every page the start node is the first header that has
    a spelling matched by the exact term or, when no header has one, the
    first header that has a spelling matched by the generic term. *)
Theorem header_matching_ignores_case (headers : list element) :
  (forall p h,
     header_matches p h = true <-> Worded.matches_in_some_case p h)
  /\ (forall h,
        find_start_node target_patterns headers = Some h <->
        Worded.first_such (Worded.matches_in_some_case exact_term) headers h
        \/ ((forall x, In x headers ->
               ~ Worded.matches_in_some_case exact_term x)
            /\ Worded.first_such (Worded.matches_in_some_case generic_term)
                 headers h)).
Proof.
  split; [apply header_matches_some_case|]. intros h.
  unfold target_patterns. simpl. split.
  - destruct (first_header exact_term headers) as [h1|] eqn:E1.
    + intros E. injection E as <-. left.
      now apply first_match_first_such, first_header_is_first_match.
    + destruct (first_header generic_term headers) as [h2|] eqn:E2;
        [|discriminate].
      intros E. injection E as <-. right. split.
      * intros x Hx Hm. apply header_matches_some_case in Hm.
        assert (Hn : header_matches exact_term x = false).
        { clear - E1 Hx. induction headers as [|y hs IH]; [destruct Hx|].
          simpl in E1. destruct (header_matches exact_term y) eqn:Hy;
            [discriminate|].
          destruct Hx as [<- | Hx]; auto. }
        rewrite Hn in Hm. discriminate.
      * now apply first_match_first_such, first_header_is_first_match.
  - intros [Hf | [Hno Hf]].
    + apply first_match_first_such in Hf.
      now rewrite (first_header_first_match Hf).
    + rewrite (first_header_none exact_term headers).
      * apply first_match_first_such in Hf.
        now rewrite (first_header_first_match Hf).
      * intros x Hx. destruct (header_matches exact_term x) eqn:Hm;
          [|reflexivity].
        exfalso. apply (Hno x Hx). now apply header_matches_some_case.
Qed.

(** *** Marking a link *)

(** C5, as the code has it. A link is marked as a class entry by the
    identifier test, before the junk and length filters, exactly when its
    normalized text holds four or more consecutive digits, which is the
    same as holding four to six of them in a row somewhere: the digits
    need not be a number of their own. The filters can only withdraw the
    mark. *)
Theorem id_pattern_marks_candidate (link : element) :
  (has_id (link_text link) = true <->
   exists a d b,
     link_text link = (a ++ d ++ b)%string /\
     4 <= String.length d /\ all_chars is_digit d = true)
  /\ (has_id (link_text link) = true <-> contains_digit_token 4 6 (link_text link))
  /\ is_candidate (link_text link)
     = has_id (link_text link) && negb (has_junk (link_text link))
       && negb (String.length (link_text link) <? 5).
Proof.
  assert (Hid : has_id (link_text link) = true <->
                contains_digit_token 4 6 (link_text link)).
  { rewrite <- search_id_pattern. unfold has_id.
    destruct (search false id_pattern (link_text link)); split; congruence. }
  split; [|split].
  - rewrite Hid. apply digit_token_of_long_run.
  - exact Hid.
  - unfold is_candidate.
    destruct (has_id _), (has_junk _), (_ <? 5); reflexivity.
Qed.

(** C5 as the claim words it fails: a link with a seven-digit number is
    marked, and so is one with an eleven-digit number, though neither text
    holds a number of four to six digits. *)
Lemma long_number_is_marked :
  has_id "Kurs 1234567" = true
  /\ Worded.has_numeric_token 4 6 "Kurs 1234567" = false
  /\ Worded.numbers_of 0 "Kurs 1234567" = [7]
  /\ has_id "Kurs 12345678901" = true
  /\ Worded.has_numeric_token 4 6 "Kurs 12345678901" = false.
Proof. repeat split; reflexivity. Qed.

(** *** Deduplication *)

Lemma process_keep_first links : forall classes seen,
  process links classes seen
  = classes ++ keep_first seen (filter is_candidate (map link_text links)).
Proof.
  induction links as [|link links IH]; intros classes seen; simpl.
  - now rewrite app_nil_r.
  - destruct (is_candidate (link_text link)); simpl; [|apply IH].
    destruct (mem (link_text link) seen); simpl; [apply IH|].
    rewrite IH, <- app_assoc. reflexivity.
Qed.

Lemma classify_keep_first links :
  classify links = keep_first [] (filter is_candidate (map link_text links)).
Proof. unfold classify. now rewrite process_keep_first. Qed.

Lemma in_keep_first texts : forall seen t,
  In t (keep_first seen texts) <-> In t texts /\ ~ In t seen.
Proof.
  induction texts as [|x texts IH]; intros seen t; simpl; [tauto|].
  destruct (mem x seen) eqn:Hx.
  - apply mem_spec in Hx. rewrite IH. split.
    + tauto.
    + intros [[<- | Hin] Hn]; [contradiction | tauto].
  - assert (Hn : ~ In x seen).
    { intros Hin. apply mem_spec in Hin. congruence. }
    simpl. rewrite IH. simpl. split.
    + intros [<- | [Hin Hns]]; [tauto | tauto].
    + intros [[<- | Hin] Hns]; [now left|].
      destruct (string_dec x t) as [<- | Hne]; [now left | right; tauto].
Qed.

Lemma NoDup_keep_first texts : forall seen, NoDup (keep_first seen texts).
Proof.
  induction texts as [|x texts IH]; intros seen; simpl; [constructor|].
  destruct (mem x seen); [apply IH|]. constructor; [|apply IH].
  rewrite in_keep_first. simpl. tauto.
Qed.

(** An entry of the output stands at its first occurrence in the input,
    and nothing that follows it in the output occurs earlier. *)
Lemma keep_first_order texts : forall seen o1 x o2,
  keep_first seen texts = o1 ++ x :: o2 ->
  exists l1 l2,
    texts = l1 ++ x :: l2 /\ ~ In x l1 /\ forall y, In y o2 -> ~ In y l1.
Proof.
  induction texts as [|t texts IH]; intros seen o1 x o2 E; simpl in E.
  - destruct o1; discriminate.
  - destruct (mem t seen) eqn:Ht.
    + apply mem_spec in Ht.
      assert (Hout : forall y, In y (x :: o2) -> y <> t).
      { intros y Hy ->.
        assert (Hin : In t (keep_first seen texts))
          by (rewrite E; apply in_or_app; now right).
        apply in_keep_first in Hin. tauto. }
      destruct (IH _ _ _ _ E) as (l1 & l2 & -> & Hx & Hy).
      exists (t :: l1), l2. split; [reflexivity|]. split.
      * intros [Eq | Hin]; [|contradiction].
        apply (Hout x); [now left | congruence].
      * intros y Hin [Eq | Hin']; [|now apply (Hy y)].
        apply (Hout y); [now right | congruence].
    + destruct o1 as [|z o1]; simpl in E; injection E as <- E.
      * exists [], texts. repeat split; auto.
      * assert (Hout : forall y, In y (x :: o2) -> y <> t).
        { intros y Hy ->.
          assert (Hin : In t (keep_first (t :: seen) texts))
            by (rewrite E; apply in_or_app; now right).
          apply in_keep_first in Hin. simpl in Hin. tauto. }
        destruct (IH _ _ _ _ E) as (l1 & l2 & -> & Hx & Hy).
        exists (t :: l1), l2. split; [reflexivity|]. split.
        -- intros [Eq | Hin]; [|contradiction].
           apply (Hout x); [now left | congruence].
        -- intros y Hin [Eq | Hin']; [|now apply (Hy y)].
           apply (Hout y); [now right | congruence].
Qed.

Lemma filter_split {A : Type} (f : A -> bool) l : forall l1 x l2,
  filter f l = l1 ++ x :: l2 ->
  exists m1 m2, l = m1 ++ x :: m2 /\ filter f m1 = l1 /\ filter f m2 = l2.
Proof.
  induction l as [|a l IH]; intros l1 x l2 E; simpl in E.
  - destruct l1; discriminate.
  - destruct (f a) eqn:Ha.
    + destruct l1 as [|b l1]; simpl in E; injection E as <- E.
      * exists [], l. auto.
      * destruct (IH _ _ _ E) as (m1 & m2 & -> & E1 & E2).
        exists (a :: m1), m2. simpl. rewrite Ha, E1. auto.
    + destruct (IH _ _ _ E) as (m1 & m2 & -> & E1 & E2).
      exists (a :: m1), m2. simpl. rewrite Ha. auto.
Qed.

(** C6. For any list of candidate links the result holds no text twice
    (texts compared exactly, letter case included); it holds exactly the
    normalized texts of the links that pass the tests; and it keeps the
    order of first occurrence: each entry stands where its text first
    occurs among the links, and no later entry of the result occurs before
    that place. *)
Theorem classify_dedup (links : list element) :
  NoDup (classify links)
  /\ (forall t, In t (classify links) <->
                In t (map link_text links) /\ is_candidate t = true)
  /\ (forall o1 x o2, classify links = o1 ++ x :: o2 ->
        exists l1 l2,
          map link_text links = l1 ++ x :: l2 /\
          ~ In x l1 /\ forall y, In y o2 -> ~ In y l1).
Proof.
  rewrite classify_keep_first. split; [apply NoDup_keep_first|]. split.
  - intros t. rewrite in_keep_first, filter_In. simpl. tauto.
  - intros o1 x o2 E.
    assert (Hcand : forall y, In y (x :: o2) -> is_candidate y = true).
    { intros y Hy.
      assert (Hin : In y (keep_first [] (filter is_candidate (map link_text links))))
        by (rewrite E; apply in_or_app; now right).
      apply in_keep_first in Hin as [Hin _]. now apply filter_In in Hin. }
    destruct (keep_first_order _ _ _ _ _ E) as (f1 & f2 & Ef & Hx & Hy).
    destruct (filter_split _ _ _ _ _ Ef) as (m1 & m2 & -> & <- & _).
    exists m1, m2. split; [reflexivity|]. split.
    + intros Hin. apply Hx. apply filter_In. split; [assumption|].
      apply Hcand. now left.
    + intros y Hin Hm. apply (Hy y Hin). apply filter_In.
      split; [assumption|]. apply Hcand. now right.
Qed.

(** *** The section between two headers *)

Lemma collect_links_until following : forall rest,
  (forall e, In e following -> is_header_div (snd e) = false) ->
  (rest = [] \/ exists e rest', rest = e :: rest' /\ is_header_div (snd e) = true) ->
  collect_links (following ++ rest)
  = filter (fun e => is_anchor (snd e)) following.
Proof.
  induction following as [|e following IH]; intros rest Hno Hrest; simpl.
  - destruct Hrest as [-> | (e & rest' & -> & He)]; simpl; [reflexivity|].
    now rewrite He.
  - rewrite (Hno e) by now left.
    rewrite IH; auto. intros x Hx. apply Hno. now right.
Qed.

(** The links collected after the tag [start] depend only on the tags up
    to the next header. *)
Lemma candidate_links_between soup before start between rest :
  tags soup = before ++ start :: between ++ rest ->
  (forall n, In n between -> is_header_div n = false) ->
  (rest = [] \/ exists h after, rest = h :: after /\ is_header_div h = true) ->
  candidate_links (length before, start) soup
  = filter (fun e => is_anchor (snd e))
           (number_from (S (length before)) between).
Proof.
  intros Etags Hno Hrest.
  unfold candidate_links, find_all_next, elements. simpl fst.
  rewrite Etags, following_tags, number_from_app.
  apply collect_links_until.
  - intros e He. apply in_number_from in He as [He _]. now apply Hno.
  - destruct Hrest as [-> | (h & after & -> & Hh)]; [now left | right].
    rewrite number_from_cons. eauto.
Qed.

(** C3, as the code has it. Let the tags of a page be, in document
    order, [before], the selected header [h2], [between] and [rest],
    where [between] holds no div that carries the marker class and [rest]
    is empty (document end) or begins with the next such div [h3]. The
    tags inside [h2] come right after it in this order, so they belong to
    [between], and so does a tag other than a div that carries the marker
    class. The candidate links are exactly the anchors of [between], each
    with its position strictly after [h2] and strictly before [rest]; no
    tag of [before] or of [rest] is among them, and the extracted classes
    are those of the anchors of [between]. *)
Theorem boundary_correctness
  (soup : document) (before : list node) (h2 : node)
  (between rest : list node) :
  tags soup = before ++ h2 :: between ++ rest ->
  (forall n, In n between -> is_header_div n = false) ->
  (rest = [] \/ exists h3 after, rest = h3 :: after /\ is_header_div h3 = true) ->
  find_start_node target_patterns (all_headers soup) = Some (length before, h2) ->
  candidate_links (length before, h2) soup
  = filter (fun e => is_anchor (snd e))
           (number_from (S (length before)) between)
  /\ (forall e, In e (candidate_links (length before, h2) soup) ->
        In (snd e) between /\ is_anchor (snd e) = true /\
        length before < fst e <= length before + length between)
  /\ extract_current_classes soup
     = classify (filter (fun e => is_anchor (snd e))
                        (number_from (S (length before)) between)).
Proof.
  intros Etags Hno Hrest Hstart.
  pose proof (@candidate_links_between soup before h2 between rest Etags Hno Hrest) as Ec.
  split; [assumption|]. split.
  - intros e He. rewrite Ec in He. apply filter_In in He as [He Ha].
    apply in_number_from in He as [He L]. repeat split; auto; lia.
  - unfold extract_current_classes. now rewrite Hstart, Ec.
Qed.

(** *** No header *)

Lemma no_header_no_classes soup :
  find_start_node target_patterns (all_headers soup) = None ->
  extract_current_classes soup = [].
Proof.
  intros E. unfold extract_current_classes, _legacy_extract. rewrite E.
  destruct (contains "Aktuelle Veranstaltungen" (soup_text soup));
    [destruct (negb _)|]; reflexivity.
Qed.

(** *** The end-to-end scenario *)

Lemma all_headers_filter soup :
  all_headers soup = filter (fun e => is_header_div (snd e)) (elements soup).
Proof. reflexivity. Qed.

(** The first header div of the page that matches [p] is what
    [first_header] returns over [all_headers]. *)
Lemma first_header_in_page p soup before h rest :
  tags soup = before ++ h :: rest ->
  is_header_div h = true ->
  search true p (normalize (get_text h)) = true ->
  (forall n, In n before -> is_header_div n = true ->
             search true p (normalize (get_text n)) = false) ->
  first_header p (all_headers soup) = Some (length before, h).
Proof.
  intros Etags Hh Hm Hno. apply first_header_first_match.
  rewrite all_headers_filter. unfold elements, number.
  rewrite Etags, number_from_app, number_from_cons, filter_app. simpl.
  rewrite Hh. eexists _, _. split; [reflexivity|]. split; [exact Hm|].
  intros x Hx. apply filter_In in Hx as [Hx Hd].
  apply in_number_from in Hx as [Hx _]. now apply Hno.
Qed.

Ltac in_cases H :=
  simpl in H;
  repeat (let E := fresh in destruct H as [E | H]; [try subst |]);
  try contradiction.

(** C2. A page whose tags are, in document order: tags among which no
    header div matches the exact term; the header div with text
    "Wintersemester 2025/26"; tags without header div whose anchors read
    "Algorithmen 12345", "Raum 101" and "Grundlagen der Informatik 54321"
    in this order; a second header div; and anything after it. The
    extraction returns the first and the third text, in this order. *)
Theorem winter_term_scenario
  (soup : document) (before : list node) (h : node) (between : list node)
  (h' : node) (after : list node) :
  tags soup = before ++ h :: between ++ h' :: after ->
  (forall n, In n before -> is_header_div n = true ->
             search true exact_term (normalize (get_text n)) = false) ->
  is_header_div h = true ->
  normalize (get_text h) = "Wintersemester 2025/26" ->
  (forall n, In n between -> is_header_div n = false) ->
  map (fun n => normalize (get_text n)) (filter is_anchor between)
  = ["Algorithmen 12345"; "Raum 101"; "Grundlagen der Informatik 54321"] ->
  is_header_div h' = true ->
  normalize (get_text h') = "Sommersemester 2025" ->
  extract_current_classes soup
  = ["Algorithmen 12345"; "Grundlagen der Informatik 54321"]
  /\ has_junk "Raum 101" = true
  /\ contains (lower "Raum") (lower "Raum 101") = true.
Proof.
  intros Etags Hbefore Hh Htext Hbetween Hlinks Hh' _.
  split; [|split; reflexivity].
  assert (Hstart : find_start_node target_patterns (all_headers soup)
                   = Some (length before, h)).
  { unfold target_patterns. simpl.
    rewrite (@first_header_in_page exact_term soup before h
               (between ++ h' :: after)); auto.
    rewrite Htext. reflexivity. }
  destruct (@boundary_correctness soup before h between (h' :: after))
    as (_ & _ & ->); auto.
  { right. eauto. }
  rewrite classify_keep_first.
  replace (map link_text
             (filter (fun e => is_anchor (snd e))
                     (number_from (S (length before)) between)))
    with (map (fun n => normalize (get_text n)) (filter is_anchor between)).
  - rewrite Hlinks. reflexivity.
  - rewrite <- (filter_number_from is_anchor between (S (length before))).
    now rewrite map_map.
Qed.

Lemma winter_term_scenario_witness :
  extract_current_classes Sample.page
  = ["Algorithmen 12345"; "Grundlagen der Informatik 54321"]
  /\ has_junk "Raum 101" = true
  /\ contains (lower "Raum") (lower "Raum 101") = true.
Proof.
  apply (@winter_term_scenario Sample.page
           [Tag "html" [] [Sample.body]; Sample.body]
           Sample.winter (tags_of Sample.winter_rows)
           Sample.summer (tags_of Sample.summer_rows)).
  - reflexivity.
  - intros n Hin. in_cases Hin; intros Hd; discriminate Hd.
  - reflexivity.
  - reflexivity.
  - intros n Hin. in_cases Hin; reflexivity.
  - reflexivity.
  - reflexivity.
  - reflexivity.
Defined.

Lemma boundary_correctness_witness :
  candidate_links (2, Sample.h2) Sample.three_terms
  = [(5, Sample.anchor "Algorithmen 12345")]
  /\ (forall e, In e (candidate_links (2, Sample.h2) Sample.three_terms) ->
        In (snd e) (tags_of Sample.items) /\ is_anchor (snd e) = true /\
        2 < fst e <= 2 + 4)
  /\ extract_current_classes Sample.three_terms = ["Algorithmen 12345"].
Proof.
  apply (@boundary_correctness Sample.three_terms
           [Sample.h1; Sample.old_link] Sample.h2
           (tags_of Sample.items) [Sample.h3; Sample.new_link]).
  - reflexivity.
  - intros n Hin. in_cases Hin; reflexivity.
  - right. exists Sample.h3, [Sample.new_link]. split; reflexivity.
  - reflexivity.
Defined.

(** On a page with two term headers in unusual letter case the later
    one, the expected term, is the start node. *)
Lemma header_matching_ignores_case_witness :
  find_start_node target_patterns
    (all_headers EdgeSamples.mixed_case_page)
  = Some (2, EdgeSamples.capital_winter).
Proof.
  apply (proj2 (header_matching_ignores_case
                  (all_headers EdgeSamples.mixed_case_page))
               (2, EdgeSamples.capital_winter)).
  left. exists [(0, EdgeSamples.small_summer)], []. split; [reflexivity|].
  split.
  - exists "Wintersemester 2025/26". split; reflexivity.
  - intros x [<- | []] (t0 & E & Hs).
    apply (search_ignorecase _ _ _ (header_text (0, EdgeSamples.small_summer)))
      in Hs; [|now symmetry].
    vm_compute in Hs. discriminate.
Defined.

(** C3 does not hold as worded. On a page whose selected header holds a
    link, followed by a link, a table cell that carries the marker class
    and another link, the anchors strictly after the header and before
    the next node with the marker class are the second link alone; the
    code also takes the link inside the header and, since only a div ends
    the section, the link after the table cell. *)
Lemma marker_on_other_tag_is_no_boundary :
  find_start_node target_patterns (all_headers EdgeSamples.marked_page)
  = Some (0, EdgeSamples.linked_header)
  /\ map link_text
       (candidate_links (0, EdgeSamples.linked_header)
                        EdgeSamples.marked_page)
     = ["Semesterplan 20252"; "Algorithmen 12345"; "Logik 11111"]
  /\ map link_text
       (Worded.links_as_worded (0, EdgeSamples.linked_header)
                               EdgeSamples.marked_page)
     = ["Algorithmen 12345"]
  /\ extract_current_classes EdgeSamples.marked_page
     = ["Semesterplan 20252"; "Algorithmen 12345"; "Logik 11111"].
Proof. repeat split; reflexivity. Qed.

(** The page with the lower-case header yields its link. *)
Example small_page_classes :
  extract_current_classes Sample.small_page = ["Algorithmen 12345"].
Proof. reflexivity. Qed.

(** The exact term wins over an earlier header of another term. *)
Example three_terms_start :
  find_start_node target_patterns (all_headers Sample.three_terms)
  = Some (2, Sample.h2)
  /\ first_header generic_term (all_headers Sample.three_terms)
     = Some (0, Sample.h1).
Proof. split; reflexivity. Qed.

(** Texts that differ in letter case only are both kept. *)
Example dedup_is_case_sensitive :
  classify [(0, Sample.anchor "Algo 12345"); (1, Sample.anchor "ALGO 12345");
            (2, Sample.anchor "Algo   12345 ")]
  = ["Algo 12345"; "ALGO 12345"].
Proof. reflexivity. Qed.

(** A run of seven digits also marks a link. *)
Example long_number_marks : has_id "Kurs 1234567" = true.
Proof. reflexivity. Qed.

End ExtractFacts.

(** ** The effects of the scraper *)

Module ScraperFacts.
Import Text Dom Session LsfScraper.
Local Open Scope py_scope.

Section Facts.
Context {W El : Type} `{Browser W El}.

#[local] Abbreviation M := (@Session.M W El).
#[local] Abbreviation scraper := (Session.scraper W El).

(** *** Single calls *)

Lemma call_inv {A : Type} (ev : event El) (op : W -> outcome A * W)
      (s : scraper) r s' :
  call ev op s = (r, s') ->
  exists w, op (world s) = (r, w) /\ s' = record_call ev s w.
Proof.
  unfold call. destruct (op (world s)) as [r0 w]. intros E.
  injection E as <- <-. eauto.
Qed.

Lemma on_driver_ok {A : Type} attr (ev : event El) (op : W -> outcome A * W)
      (s : scraper) a s' :
  on_driver attr ev op s = (Ok a, s') ->
  driver s = true /\ exists w, op (world s) = (Ok a, w) /\ s' = record_call ev s w.
Proof.
  unfold on_driver. destruct (driver s); [|discriminate].
  intros E. split; [reflexivity | now apply call_inv].
Qed.

Lemma bind_ok {A B : Type} (m : M A) (k : A -> M B) s a s1 :
  m s = (Ok a, s1) -> bind m k s = k a s1.
Proof. unfold bind. now intros ->. Qed.

Lemma bind_raise {A B : Type} (m : M A) (k : A -> M B) s e s1 :
  m s = (Raise e, s1) -> bind m k s = (Raise e, s1).
Proof. unfold bind. now intros ->. Qed.

Lemma bind_ok_inv {A B : Type} (m : M A) (k : A -> M B) s b s' :
  bind m k s = (Ok b, s') ->
  exists a s1, m s = (Ok a, s1) /\ k a s1 = (Ok b, s').
Proof.
  unfold bind. destruct (m s) as [[a | e] s1]; [eauto | discriminate].
Qed.

(** *** Steady computations *)

Lemma steady_ret {A : Type} (a : A) : steady (ret a : M A).
Proof.
  intros s r s' E. injection E as <- <-. split; [reflexivity|].
  exists []. now rewrite app_nil_r.
Qed.

Lemma steady_raise {A : Type} (e : exn) : steady (raise e : M A).
Proof.
  intros s r s' E. injection E as <- <-. split; [reflexivity|].
  exists []. now rewrite app_nil_r.
Qed.

Lemma steady_get_self {A : Type} (f : scraper -> A) : steady (get_self f).
Proof.
  intros s r s' E. injection E as <- <-. split; [reflexivity|].
  exists []. now rewrite app_nil_r.
Qed.

Lemma steady_call {A : Type} (ev : event El) (op : W -> outcome A * W) :
  steady (call ev op).
Proof.
  intros s r s' E. apply call_inv in E as (w & _ & ->). simpl. eauto.
Qed.

Lemma steady_on_driver {A : Type} attr (ev : event El) (op : W -> outcome A * W) :
  steady (on_driver attr ev op).
Proof.
  intros s r s'. unfold on_driver. destruct (driver s) eqn:D.
  - intros E. apply call_inv in E as (w & _ & ->). simpl. eauto.
  - intros E. injection E as <- <-. split; [assumption|].
    exists []. now rewrite app_nil_r.
Qed.

Lemma steady_then (s s1 s2 : scraper) :
  (driver s1 = driver s /\ exists c, trace s1 = trace s ++ c) ->
  (driver s2 = driver s1 /\ exists c, trace s2 = trace s1 ++ c) ->
  driver s2 = driver s /\ exists c, trace s2 = trace s ++ c.
Proof.
  intros (D1 & c1 & T1) (D2 & c2 & T2). split; [congruence|].
  exists (c1 ++ c2). now rewrite T2, T1, app_assoc.
Qed.

Lemma steady_bind {A B : Type} (m : M A) (k : A -> M B) :
  steady m -> (forall a, steady (k a)) -> steady (bind m k).
Proof.
  intros Hm Hk s r s'. unfold bind. destruct (m s) as [[a | e] s1] eqn:E.
  - intros Ek. exact (steady_then _ _ _ (Hm _ _ _ E) (Hk _ _ _ _ Ek)).
  - intros E'. injection E' as <- <-. apply (Hm _ _ _ E).
Qed.

Lemma steady_try_except {A : Type} (body handler : M A) :
  steady body -> steady handler -> steady (try_except body handler).
Proof.
  intros Hb Hh s r s'. unfold try_except.
  destruct (body s) as [[a | e] s1] eqn:E.
  - intros E'. injection E' as <- <-. apply (Hb _ _ _ E).
  - intros Eh. exact (steady_then _ _ _ (Hb _ _ _ E) (Hh _ _ _ Eh)).
Qed.

Lemma steady_try_except_Exception {A : Type} (body : M A) (handler : string -> M A) :
  steady body -> (forall msg, steady (handler msg)) ->
  steady (try_except_Exception body handler).
Proof.
  intros Hb Hh s r s'. unfold try_except_Exception.
  destruct (body s) as [[a | [msg | msg]] s1] eqn:E.
  - intros E'. injection E' as <- <-. apply (Hb _ _ _ E).
  - intros Eh. exact (steady_then _ _ _ (Hb _ _ _ E) (Hh _ _ _ _ Eh)).
  - intros E'. injection E' as <- <-. apply (Hb _ _ _ E).
Qed.

End Facts.

Ltac steady_step :=
  first
    [ assumption
    | match goal with Hs : forall _, steady _ |- _ => apply Hs end
    | apply steady_ret | apply steady_raise | apply steady_get_self
    | apply steady_call | apply steady_on_driver
    | apply steady_bind; [|intros ?]
    | apply steady_try_except
    | apply steady_try_except_Exception; [|intros ?]
    | match goal with
      | |- steady (if ?b then _ else _) => destruct b
      | |- steady (match ?x with _ => _ end) => destruct x
      end ].

Section Methods.
Context {W El : Type} `{Browser W El}.

#[local] Abbreviation scraper := (Session.scraper W El).

Lemma steady_first_displayed strategies : steady (first_displayed strategies).
Proof.
  induction strategies as [|l strategies IH]; simpl; repeat steady_step.
Qed.

Lemma steady_first_link texts : steady (first_link texts).
Proof.
  induction texts as [|t texts IH]; simpl; repeat steady_step.
Qed.

Lemma steady_dump prefix : steady (_dump_debug_info prefix).
Proof. unfold _dump_debug_info. repeat steady_step. Qed.

Lemma steady_inject_wait : steady inject_wait.
Proof. unfold inject_wait, wait, driver_current_url, driver_page_source. repeat steady_step. Qed.

Lemma steady_inject_username : steady inject_username.
Proof.
  unfold inject_username, clear, send_keys.
  pose proof (steady_first_displayed user_strategies).
  pose proof steady_dump. repeat steady_step.
Qed.

Lemma steady_inject_password : steady inject_password.
Proof.
  unfold inject_password, clear, send_keys.
  pose proof (steady_first_displayed pass_strategies). repeat steady_step.
Qed.

Lemma steady_inject_submit pass_field : steady (inject_submit pass_field).
Proof.
  unfold inject_submit, click, submit.
  pose proof (steady_first_displayed submit_strategies). repeat steady_step.
Qed.

Lemma steady_inject_2fa : steady inject_2fa.
Proof.
  unfold inject_2fa, wait, driver_page_source, send_keys, driver_find_element, click.
  pose proof (steady_first_displayed token_strategies). repeat steady_step.
Qed.

Lemma steady_inject : steady _inject_sso_credentials.
Proof.
  unfold _inject_sso_credentials, wait.
  pose proof steady_inject_wait. pose proof steady_inject_username.
  pose proof steady_inject_password. pose proof steady_inject_submit.
  pose proof steady_inject_2fa. pose proof steady_dump.
  repeat steady_step.
Qed.

Lemma steady_check_session : steady check_session.
Proof.
  unfold check_session, driver_get, wait, driver_current_url, driver_page_source.
  repeat steady_step.
Qed.

Lemma steady_open_login_form current_url : steady (open_login_form current_url).
Proof.
  unfold open_login_form, click.
  pose proof (steady_first_link ["Anmelden"; "Login"; "Einloggen"]).
  repeat steady_step.
Qed.

Lemma steady_login : steady login.
Proof.
  unfold login. pose proof steady_check_session.
  pose proof steady_open_login_form. pose proof steady_inject.
  repeat steady_step.
Qed.

Lemma steady_lectures_html : steady lectures_html.
Proof.
  unfold lectures_html, driver_current_url, driver_get,
    _fetch_page_via_requests, driver_page_source.
  repeat steady_step.
Qed.

(** [_setup_driver] adds its call and may set the driver. *)
Lemma setup_driver_trace (s : scraper) r s1 :
  _setup_driver s = (r, s1) -> trace s1 = trace s ++ [CallSetupDriver].
Proof.
  unfold _setup_driver. destruct (setup_driver (driver s) (world s)) as [r0 [d w]].
  intros E. now injection E as <- <-.
Qed.

(** After the driver is set up, the rest of the orchestration is steady. *)
Lemma steady_after_setup : steady
  (try_except_Exception
     (logged_in <- login ;;
      if negb logged_in then ret (Failure "Login failed")
      else html <- lectures_html ;;
           ret (Success (extract_current_classes html)))
     (fun msg => ret (Failure msg))).
Proof.
  pose proof steady_login. pose proof steady_lectures_html. repeat steady_step.
Qed.

(** [release] calls [quit] exactly when the driver is set. *)
Lemma release_with_driver (s : scraper) r s' :
  release s = (r, s') -> driver s = true ->
  driver s' = true /\ trace s' = trace s ++ [CallQuit].
Proof.
  unfold release, get_self, bind, driver_quit, on_driver. intros E D.
  do 3 (cbv beta iota in E; rewrite ?D in E).
  apply call_inv in E as (w & _ & ->). simpl. auto.
Qed.

Lemma release_keeps_driver (s : scraper) r s' :
  release s = (r, s') -> driver s' = driver s.
Proof.
  unfold release, get_self, bind, driver_quit, on_driver.
  cbv beta iota. destruct (driver s) eqn:D; cbv beta iota; rewrite ?D; intros E.
  - apply call_inv in E as (w & _ & ->). simpl. auto.
  - unfold ret in E. injection E as <- <-. assumption.
Qed.

(** *** Release of the session *)

(** C9. Whatever way [get_current_classes] ends (a success result, a
    failure result after a failed login or a caught exception, or an
    exception that escapes), if [_setup_driver] has left a driver then the
    last call of the operation is the driver's [quit]: the record of calls
    is the one before the operation, then [_setup_driver], the calls of
    the orchestration, and [quit] at the end. *)
Theorem session_released_on_every_exit (s : scraper) r s' :
  get_current_classes s = (r, s') ->
  forall r1 s1, _setup_driver s = (r1, s1) -> driver s1 = true ->
  exists calls, trace s' = trace s ++ CallSetupDriver :: calls ++ [CallQuit].
Proof.
  unfold get_current_classes, try_finally. intros E r1 s1 Es D.
  destruct (try_except_Exception orchestrate _ s) as [rb sb] eqn:Eb.
  assert (Hb : driver sb = true /\
               exists calls, trace sb = trace s ++ CallSetupDriver :: calls).
  { unfold try_except_Exception, orchestrate, bind in Eb. rewrite Es in Eb.
    assert (T1 := Es). apply setup_driver_trace in T1.
    destruct r1 as [[] | e].
    - assert (Hs := steady_after_setup).
      destruct (Hs s1 rb sb) as (D' & c & T).
      + unfold try_except_Exception, bind. exact Eb.
      + split; [congruence|]. exists c. rewrite T, T1, <- app_assoc. reflexivity.
    - assert (sb = s1) as ->
          by (destruct e; unfold ret in Eb; now injection Eb).
      split; [assumption|]. exists []. assumption. }
  destruct Hb as (Db & c & Tb).
  destruct (release sb) as [rq sq] eqn:Eq.
  assert (Tq := Eq). apply release_with_driver in Tq as (_ & Tq); [|assumption].
  assert (s' = sq) as -> by (destruct rq; now injection E).
  exists c. rewrite Tq, Tb, <- app_assoc. reflexivity.
Qed.

(** *** A resumed session *)

Ltac run E := erewrite bind_ok by exact E; cbv beta.

Lemma try_wait_inv c (s : scraper) r s' :
  try_except (wait c) (ret tt) s = (r, s') ->
  r = Ok tt /\ exists w, s' = record_call (CallWaitUntil c) s w.
Proof.
  unfold try_except, wait.
  destruct (call (CallWaitUntil c) (wait_until c) s) as [[[] | e] s1] eqn:E;
    apply call_inv in E as (w & _ & ->); intros E; injection E as <- <-; eauto.
Qed.

Lemma login_resumed (s s' : scraper) :
  already_authenticated s s' ->
  login s = (Ok true, s') /\ trace s' = trace s ++ resumed_calls.
Proof.
  intros (s1 & s2 & s3 & url & source & E1 & E2 & E3 & E4 & Hu & Hs). split.
  - assert (Ec : check_session s = (Ok None, s')).
    { unfold check_session. run E1. run E2. run E3. run E4.
      now rewrite Hu, Hs. }
    unfold login. run Ec. reflexivity.
  - apply on_driver_ok in E1 as (_ & w1 & _ & ->).
    apply try_wait_inv in E2 as (_ & w2 & ->).
    apply on_driver_ok in E3 as (_ & w3 & _ & ->).
    apply on_driver_ok in E4 as (_ & w4 & _ & ->).
    simpl. now rewrite <- !app_assoc.
Qed.

(** The same short cut inside [_inject_sso_credentials] (lines 82-83). *)
Lemma inject_resumed (s s1 s2 s3 : scraper) url source :
  wait UntilSsoOrPortal s = (Ok tt, s1) ->
  driver_current_url s1 = (Ok url, s2) ->
  driver_page_source s2 = (Ok source, s3) ->
  contains "lsf.tu-dortmund.de" url = true ->
  contains "Abmelden" source = true ->
  _inject_sso_credentials s = (Ok true, s3)
  /\ trace s3 = trace s ++ [CallWaitUntil UntilSsoOrPortal; CallCurrentUrl; CallPageSource].
Proof.
  intros E1 E2 E3 Hu Hs. split.
  - assert (Ew : inject_wait s = (Ok true, s3)).
    { unfold inject_wait. run E1. run E2. rewrite Hu. run E3.
      unfold ret. now rewrite Hs. }
    unfold _inject_sso_credentials, try_except_Exception. run Ew. reflexivity.
  - apply call_inv in E1 as (w1 & _ & ->).
    apply on_driver_ok in E2 as (_ & w2 & _ & ->).
    apply on_driver_ok in E3 as (_ & w3 & _ & ->).
    simpl. now rewrite <- !app_assoc.
Qed.

Lemma first_call_recorded {A B : Type} (ev : event El)
      (op : W -> outcome A * W) (k : A -> M B) :
  (forall a, steady (k a)) ->
  forall (s : scraper) r s', bind (call ev op) k s = (r, s') ->
  exists calls, trace s' = trace s ++ ev :: calls.
Proof.
  intros Hk s r s'. unfold bind.
  destruct (call ev op s) as [[a | e] s1] eqn:E;
    apply call_inv in E as (w & _ & ->).
  - intros Ek. apply Hk in Ek as (_ & c & ->). simpl.
    exists c. now rewrite <- app_assoc.
  - intros E. injection E as <- <-. simpl. now exists [].
Qed.

(** Whatever follows, a computation that begins with a call records it. *)
Lemma first_call_then {A B : Type} (ev : event El) (m : M A) (k : A -> M B) :
  (forall (s : scraper) r s', m s = (r, s') ->
     exists calls, trace s' = trace s ++ ev :: calls) ->
  (forall a, steady (k a)) ->
  forall (s : scraper) r s', bind m k s = (r, s') ->
  exists calls, trace s' = trace s ++ ev :: calls.
Proof.
  intros Hm Hk s r s'. unfold bind.
  destruct (m s) as [[a | e] s1] eqn:E.
  - intros Ek. apply Hm in E as (c & T). apply Hk in Ek as (_ & c' & T').
    exists (c ++ c'). rewrite T', T, <- app_assoc. reflexivity.
  - intros E'. injection E' as <- <-. now apply Hm in E.
Qed.

(** [_inject_sso_credentials] begins with its wait, however it ends. *)
Lemma inject_begins_with_wait (s : scraper) r s' :
  _inject_sso_credentials s = (r, s') ->
  exists calls, trace s' = trace s ++ CallWaitUntil UntilSsoOrPortal :: calls.
Proof.
  unfold _inject_sso_credentials, try_except_Exception.
  match goal with
  | |- context [bind inject_wait ?k s] =>
      destruct (bind inject_wait k s) as [rb sb] eqn:Eb;
      assert (Hb : exists calls,
                 trace sb = trace s ++ CallWaitUntil UntilSsoOrPortal :: calls)
  end.
  { revert Eb. apply first_call_then.
    - intros t rt t'. unfold inject_wait, wait. apply first_call_recorded.
      intros a. unfold driver_current_url, driver_page_source.
      repeat steady_step.
    - intros a. unfold wait.
      pose proof steady_inject_username. pose proof steady_inject_password.
      pose proof steady_inject_submit. pose proof steady_inject_2fa.
      repeat steady_step. }
  destruct Hb as (c & Tb).
  destruct rb as [b | [msg | msg]]; intros E.
  - injection E as <- <-. eauto.
  - assert (Hs : steady (_dump_debug_info "lsf_injection_fail" ;;;
                         (ret false : M bool))).
    { pose proof steady_dump. repeat steady_step. }
    apply Hs in E as (_ & c' & T').
    exists (c ++ c'). rewrite T', Tb, <- app_assoc. reflexivity.
  - injection E as <- <-. eauto.
Qed.

(** What a run of [check_session] that returns consists of. *)
Lemma check_session_inv (s : scraper) checked s' :
  check_session s = (Ok checked, s') ->
  exists s1 s2 s3 url source,
    driver_get lsf_url s = (Ok tt, s1) /\
    try_except (wait UntilLoginState) (ret tt) s1 = (Ok tt, s2) /\
    driver_current_url s2 = (Ok url, s3) /\
    driver_page_source s3 = (Ok source, s') /\
    checked = (if contains "lsf.tu-dortmund.de" url && contains "Abmelden" source
               then None else Some url) /\
    trace s' = trace s ++ resumed_calls.
Proof.
  unfold check_session. intros E.
  apply bind_ok_inv in E as ([] & s1 & E1 & E).
  apply bind_ok_inv in E as ([] & s2 & E2 & E).
  apply bind_ok_inv in E as (url & s3 & E3 & E).
  apply bind_ok_inv in E as (source & s4 & E4 & E).
  assert (s4 = s' /\
          checked = (if contains "lsf.tu-dortmund.de" url
                        && contains "Abmelden" source
                     then None else Some url)) as (-> & ->).
  { destruct (contains "lsf.tu-dortmund.de" url && contains "Abmelden" source);
      unfold ret in E; injection E as <- <-; auto. }
  exists s1, s2, s3, url, source. do 5 (split; [assumption || reflexivity|]).
  apply on_driver_ok in E1 as (_ & w1 & _ & ->).
  apply try_wait_inv in E2 as (_ & w2 & ->).
  apply on_driver_ok in E3 as (_ & w3 & _ & ->).
  apply on_driver_ok in E4 as (_ & w4 & _ & ->).
  simpl. now rewrite <- !app_assoc.
Qed.

(** A [login] that returns True having made the four calls of a resumed
    session and no other has met an authenticated session: on the other
    path [_inject_sso_credentials] adds at least its wait. *)
Lemma login_four_calls_inv (s s' : scraper) :
  login s = (Ok true, s') ->
  trace s' = trace s ++ resumed_calls ->
  already_authenticated s s'.
Proof.
  unfold login. intros E T.
  apply bind_ok_inv in E as (checked & s2 & Ec & E).
  apply check_session_inv in Ec
    as (s1 & s2' & s3 & url & source & E1 & E2 & E3 & E4 & -> & Tc).
  destruct (contains "lsf.tu-dortmund.de" url && contains "Abmelden" source)
    eqn:Hc.
  - unfold ret in E. injection E as <-.
    apply andb_prop in Hc as (Hu & Hs).
    exists s1, s2', s3, url, source. auto 7.
  - exfalso. apply bind_ok_inv in E as ([] & s4 & Eo & Ei).
    apply steady_open_login_form in Eo as (_ & c1 & T1).
    apply inject_begins_with_wait in Ei as (c2 & T2).
    rewrite T2, T1, Tc in T. rewrite <- !app_assoc in T.
    apply app_inv_head in T.
    apply (f_equal (@length _)) in T. rewrite !length_app in T.
    simpl in T. lia.
Qed.

(** C8, as the code has it. [login] returns True having made exactly the
    four calls of a resumed session (the navigation, the wait and the two
    reads) if and only if the session it meets is already authenticated:
    the URL read is on the portal domain and the page read shows
    "Abmelden". None of the four calls fills, clicks or submits anything.
    Hence, after a first [login] that returned True, a second one returns
    True with these four calls only if and only if the session the first
    one left is already authenticated. That the first one returned True
    does not make it so. *)
Theorem resumed_session_skips_credentials (s s' : scraper) :
  (already_authenticated s s' <->
     login s = (Ok true, s') /\ trace s' = trace s ++ resumed_calls)
  /\ existsb touches_credentials (@resumed_calls El) = false
  /\ forall s0,
       login s0 = (Ok true, s) ->
       (already_authenticated s s' <->
          (first <- login ;; second <- login ;; ret (first, second)) s0
          = (Ok (true, true), s')
          /\ trace s' = trace s ++ resumed_calls).
Proof.
  split; [split|split].
  - apply login_resumed.
  - intros (E & T). now apply login_four_calls_inv.
  - reflexivity.
  - intros s0 E0. split.
    + intros Ha. destruct (login_resumed Ha) as (E1 & T1).
      split; [|assumption]. run E0. run E1. reflexivity.
    + intros (Ep & T). apply login_four_calls_inv; [|assumption].
      erewrite bind_ok in Ep by exact E0. cbv beta in Ep.
      apply bind_ok_inv in Ep as (second & sx & E1 & Er).
      unfold ret in Er. now injection Er as -> ->.
Qed.

(** *** A page without term header *)

(** C7. When the operation has logged in and obtained a page in which no
    header div matches a term pattern and whose text lacks the legacy
    marker, it returns the success result with an empty class list. *)
Theorem no_term_header_gives_empty_success (s0 s s' : scraper) (html : string) :
  page_obtained s0 s html ->
  (forall h, In h (Extract.all_headers (parse_html html)) ->
     Extract.header_matches Extract.exact_term h = false /\
     Extract.header_matches Extract.generic_term h = false) ->
  contains "Aktuelle Veranstaltungen" (soup_text (parse_html html)) = false ->
  release s = (Ok tt, s') ->
  get_current_classes s0 = (Ok (Success []), s').
Proof.
  intros (s1 & s2 & Es & Elog & Eh) Hno _ Er.
  assert (Eo : orchestrate s0 = (Ok (Success []), s)).
  { unfold orchestrate. run Es. run Elog. cbv beta iota delta [negb]. run Eh.
    unfold extract_current_classes.
    rewrite ExtractFacts.no_header_no_classes; [reflexivity|].
    now apply ExtractFacts.find_start_node_none. }
  unfold get_current_classes, try_finally, try_except_Exception.
  now rewrite Eo, Er.
Qed.

(** *** A missing password field *)


(** With a driver, [_dump_debug_info] begins the capture. *)
Lemma dump_attempted prefix (s : scraper) r s' :
  driver s = true ->
  _dump_debug_info prefix s = (r, s') ->
  exists calls, trace s' = trace s ++ CallDebugBasePath prefix :: calls.
Proof.
  intros D. unfold _dump_debug_info.
  unfold bind at 1. unfold get_self. cbv beta iota. rewrite D. cbv beta iota delta [negb].
  unfold try_except_Exception.
  match goal with
  | |- context [bind (call ?ev ?op) ?k s] =>
      destruct (bind (call ev op) k s) as [rb sb] eqn:Eb;
      assert (Hc : exists calls, trace sb = trace s ++ ev :: calls)
  end.
  { eapply first_call_recorded; [|exact Eb].
    intros a. unfold driver_save_screenshot, driver_page_source.
    repeat steady_step. }
  destruct rb as [[] | [msg | msg]]; unfold ret; intros E;
    injection E as <- <-; exact Hc.
Qed.

Lemma check_session_needs_driver (s : scraper) checked s' :
  check_session s = (Ok checked, s') -> driver s = true.
Proof.
  unfold check_session. intros E.
  apply bind_ok_inv in E as ([] & s1 & E & _).
  now apply on_driver_ok in E.
Qed.

(** C1, as the code has it. When the password field cannot be resolved
    after the username field has been filled, the password step raises
    the exception "Password field not found"; [_inject_sso_credentials]
    catches it, starts the capture of a debug artifact under the prefix
    "lsf_injection_fail" and returns False; [login] returns False; the
    orchestration answers with the failure result carrying the error
    "Login failed" from its own branch, not from its exception handler,
    and this is the result of the operation (the capture and the release
    of the driver returning normally). *)
Theorem missing_password_field_reports_login_failure
  (s0 s s' s'' s''' : scraper) :
  username_filled s0 s ->
  first_displayed pass_strategies s = (Ok None, s') ->
  _dump_debug_info "lsf_injection_fail" s' = (Ok tt, s'') ->
  release s'' = (Ok tt, s''') ->
  get_current_classes s0 = (Ok (Failure "Login failed"), s''')
  /\ inject_password s = (Raise (PyException "Password field not found"), s')
  /\ driver s' = true
  /\ (exists calls,
        trace s'' = trace s' ++ CallDebugBasePath "lsf_injection_fail" :: calls)
  /\ exists s1 s2 s3 url,
       _setup_driver s0 = (Ok tt, s1)
       /\ check_session s1 = (Ok (Some url), s2)
       /\ open_login_form url s2 = (Ok tt, s3)
       /\ _inject_sso_credentials s3 = (Ok false, s'')
       /\ login s1 = (Ok false, s'')
       /\ orchestrate s0 = (Ok (Failure "Login failed"), s'').
Proof.
  intros (s1 & s2 & s3 & s4 & url & Es & Ec & Eo & Ew & Eu) Ep Ed Er.
  assert (D : driver s' = true).
  { assert (D1 := Ec). apply check_session_needs_driver in D1.
    assert (D2 := Ec). apply steady_check_session in D2 as (D2 & _).
    assert (D3 := Eo). apply steady_open_login_form in D3 as (D3 & _).
    assert (D4 := Ew). apply steady_inject_wait in D4 as (D4 & _).
    assert (D5 := Eu). apply steady_inject_username in D5 as (D5 & _).
    assert (D6 := Ep). apply steady_first_displayed in D6 as (D6 & _).
    congruence. }
  assert (Epw : inject_password s
                = (Raise (PyException "Password field not found"), s')).
  { unfold inject_password. run Ep. reflexivity. }
  assert (Ei : _inject_sso_credentials s3 = (Ok false, s'')).
  { unfold _inject_sso_credentials, try_except_Exception.
    run Ew. cbv iota. run Eu. erewrite bind_raise by exact Epw.
    run Ed. reflexivity. }
  assert (Elog : login s1 = (Ok false, s'')).
  { unfold login. run Ec. cbv iota. run Eo. exact Ei. }
  assert (Eorch : orchestrate s0 = (Ok (Failure "Login failed"), s'')).
  { unfold orchestrate. run Es. run Elog. reflexivity. }
  split; [|split; [assumption|split; [assumption|split]]].
  - unfold get_current_classes, try_finally, try_except_Exception.
    now rewrite Eorch, Er.
  - now apply dump_attempted with (r := Ok tt).
  - exists s1, s2, s3, url. auto 7.
Qed.

End Methods.
End ScraperFacts.

(** ** Runs on the scripted browser *)

Module ToyRuns.
Import Text Dom Session LsfScraper Toy ExtractFacts ScraperFacts.
Local Open Scope py_scope.

Ltac splits := repeat match goal with |- _ /\ _ => split end.

(** The SSO form without password field: the username is typed, the four
    password strategies fail, the artifact is written and the driver is
    released. *)
Example run_without_password_field :
  get_current_classes (fresh sso_without_password)
  = (Ok (Failure "Login failed"),
     {| username := "smmuster"; password := "geheim"; totp_secret := None;
        driver := true; world := sso_without_password;
        trace :=
          [ CallSetupDriver;
            CallGet lsf_url; CallWaitUntil UntilLoginState;
            CallCurrentUrl; CallPageSource;
            CallWaitUntil UntilSsoOrPortal; CallCurrentUrl;
            CallFindElement (ID, "username"); CallIsDisplayed (ID, "username");
            CallClear (ID, "username");
            CallSendKeys (ID, "username") "smmuster";
            CallFindElement (ID, "password");
            CallFindElement (NAME, "j_password");
            CallFindElement (CSS_SELECTOR, "input#idToken2");
            CallFindElement (CSS_SELECTOR, "input[type='password']");
            CallDebugBasePath "lsf_injection_fail";
            CallSaveScreenshot "debug/lsf_injection_fail_20251103_084200.png";
            CallFileOpen "debug/lsf_injection_fail_20251103_084200.html";
            CallPageSource;
            CallFileWrite "debug/lsf_injection_fail_20251103_084200.html"
                          "<form><input id='username'></form>";
            CallQuit ] |}).
Proof. vm_compute. reflexivity. Qed.

Lemma username_filled_on_sso_form :
  exists s, username_filled (fresh sso_without_password) s.
Proof.
  unfold username_filled. do 6 eexists.
  splits; vm_compute; reflexivity.
Qed.

(** C1 as the claim words it fails: on the SSO form without password
    field the username is filled and the password strategies resolve
    nothing, yet the result carries "Login failed", not the message of the
    exception. *)
Lemma password_message_is_not_the_result :
  (exists s s',
     username_filled (fresh sso_without_password) s /\
     first_displayed pass_strategies s = (Ok None, s'))
  /\ fst (get_current_classes (fresh sso_without_password))
     = Ok (Failure "Login failed")
  /\ fst (get_current_classes (fresh sso_without_password))
     <> Ok (Failure "Password field not found").
Proof.
  split; [|split].
  - do 2 eexists. split.
    + unfold username_filled. do 5 eexists.
      splits; vm_compute; reflexivity.
    + vm_compute. reflexivity.
  - vm_compute. reflexivity.
  - vm_compute. discriminate.
Qed.

Lemma missing_password_field_witness :
  exists s s' s'' s''' : scraper browser locator,
    get_current_classes (fresh sso_without_password)
    = (Ok (Failure "Login failed"), s''')
    /\ inject_password s = (Raise (PyException "Password field not found"), s')
    /\ driver s' = true
    /\ (exists calls,
          trace s'' = trace s' ++ CallDebugBasePath "lsf_injection_fail" :: calls)
    /\ exists s1 s2 s3 url,
         _setup_driver (fresh sso_without_password) = (Ok tt, s1)
         /\ check_session s1 = (Ok (Some url), s2)
         /\ open_login_form url s2 = (Ok tt, s3)
         /\ _inject_sso_credentials s3 = (Ok false, s'')
         /\ login s1 = (Ok false, s'')
         /\ orchestrate (fresh sso_without_password)
            = (Ok (Failure "Login failed"), s'').
Proof.
  do 4 eexists.
  eapply (@missing_password_field_reports_login_failure _ _ _
            (fresh sso_without_password)).
  - unfold username_filled. do 5 eexists.
    splits; vm_compute; reflexivity.
  - vm_compute. reflexivity.
  - vm_compute. reflexivity.
  - vm_compute. reflexivity.
Defined.

Lemma no_term_header_witness :
  exists s', get_current_classes (fresh portal_logged_in) = (Ok (Success []), s').
Proof.
  eexists.
  eapply (@no_term_header_gives_empty_success _ _ _
            (fresh portal_logged_in) _ _ "plain").
  - unfold page_obtained. do 2 eexists.
    splits; vm_compute; reflexivity.
  - intros h Hin. vm_compute in Hin. destruct Hin as [<- | []].
    split; reflexivity.
  - reflexivity.
  - vm_compute. reflexivity.
Defined.

(** The complete SSO form: the first [login] types the credentials and
    lands on the portal with "Abmelden" shown; the second one meets an
    authenticated session and adds the four calls only. *)
Lemma resumed_session_witness :
  exists s s' : scraper browser locator,
    login (running sso_form) = (Ok true, s)
    /\ existsb touches_credentials (trace s) = true
    /\ already_authenticated s s'
    /\ login s = (Ok true, s')
    /\ trace s' = trace s ++ resumed_calls
    /\ existsb touches_credentials (@resumed_calls locator) = false
    /\ (first <- login ;; second <- login ;; ret (first, second))
         (running sso_form)
       = (Ok (true, true), s').
Proof.
  exists (snd (login (running sso_form))).
  exists (snd (login (snd (login (running sso_form))))).
  assert (E0 : login (running sso_form)
               = (Ok true, snd (login (running sso_form))))
    by (vm_compute; reflexivity).
  assert (Ha : already_authenticated
                 (snd (login (running sso_form)))
                 (snd (login (snd (login (running sso_form)))))).
  { unfold already_authenticated. do 5 eexists.
    splits; vm_compute; reflexivity. }
  destruct (@resumed_session_skips_credentials _ _ _
              (snd (login (running sso_form)))
              (snd (login (snd (login (running sso_form))))))
    as (Hone & Hno & Htwo).
  destruct (proj1 Hone Ha) as (E1 & T1).
  destruct (proj1 (Htwo _ E0) Ha) as (E2 & _).
  splits; try assumption.
  vm_compute. reflexivity.
Defined.

(** C8 does not hold as worded. A [login] returns True as soon as the URL
    is on the portal domain, whether or not the page shows "Abmelden". On
    a portal page without that word which shows a text and a password
    input, two logins in a row both return True and the second one types
    the credentials again. When the SSO form leads to a portal page
    without that word and without inputs, the first [login] returns True
    and the second one returns False. *)
Lemma second_login_may_type_again :
  (exists s1 s2 : scraper browser locator,
      login (running EdgeSamples.portal_without_marker) = (Ok true, s1)
      /\ login s1 = (Ok true, s2)
      /\ firstn (length (trace s1)) (trace s2) = trace s1
      /\ existsb touches_credentials (skipn (length (trace s1)) (trace s2))
         = true
      /\ (first <- login ;; second <- login ;; ret (first, second))
           (running EdgeSamples.portal_without_marker)
         = (Ok (true, true), s2))
  /\ (exists s1 s2 : scraper browser locator,
         login (running EdgeSamples.sso_to_bare_portal) = (Ok true, s1)
         /\ login s1 = (Ok false, s2)
         /\ (first <- login ;; second <- login ;; ret (first, second))
              (running EdgeSamples.sso_to_bare_portal)
            = (Ok (true, false), s2)).
Proof.
  split.
  - exists (snd (login (running EdgeSamples.portal_without_marker))).
    exists (snd (login (snd (login (running EdgeSamples.portal_without_marker))))).
    splits; vm_compute; reflexivity.
  - exists (snd (login (running EdgeSamples.sso_to_bare_portal))).
    exists (snd (login (snd (login (running EdgeSamples.sso_to_bare_portal))))).
    splits; vm_compute; reflexivity.
Qed.

(** A login with credentials, then a second one on the session it left:
    the second adds the four calls of a resumed session and nothing else. *)
Example login_twice :
  exists s1 s2,
    login (running sso_form) = (Ok true, s1)
    /\ existsb touches_credentials (trace s1) = true
    /\ login s1 = (Ok true, s2)
    /\ trace s2 = trace s1 ++ resumed_calls.
Proof. do 2 eexists. splits; vm_compute; reflexivity. Qed.

(** The whole operation on the complete form. *)
Example classes_after_login :
  fst (get_current_classes (fresh sso_form))
  = Ok (Success ["Algorithmen 12345"; "Grundlagen der Informatik 54321"])
  /\ last (trace (snd (get_current_classes (fresh sso_form)))) CallSetupDriver
     = CallQuit.
Proof. split; vm_compute; reflexivity. Qed.

Lemma session_released_witness :
  exists calls,
    trace (snd (get_current_classes (fresh sso_without_password)))
    = trace (fresh sso_without_password) ++ CallSetupDriver :: calls ++ [CallQuit].
Proof.
  eapply (@session_released_on_every_exit _ _ _
            (fresh sso_without_password)
            (fst (get_current_classes (fresh sso_without_password)))
            (snd (get_current_classes (fresh sso_without_password)))).
  - apply surjective_pairing.
  - vm_compute. reflexivity.
  - reflexivity.
Defined.

(** The release after a success. *)
Example released_after_success :
  get_current_classes (fresh portal_logged_in)
  = (Ok (Success []),
     {| username := "smmuster"; password := "geheim"; totp_secret := None;
        driver := true; world := portal_logged_in;
        trace :=
          [ CallSetupDriver;
            CallGet lsf_url; CallWaitUntil UntilLoginState;
            CallCurrentUrl; CallPageSource;
            CallCurrentUrl; CallFetch lsf_url;
            CallQuit ] |}).
Proof. vm_compute. reflexivity. Qed.

(** The release after an exception caught by the operation. *)
Example released_after_exception :
  get_current_classes (fresh unreachable)
  = (Ok (Failure "net::ERR_NAME_NOT_RESOLVED"),
     {| username := "smmuster"; password := "geheim"; totp_secret := None;
        driver := true; world := unreachable;
        trace := [CallSetupDriver; CallGet lsf_url; CallQuit] |}).
Proof. vm_compute. reflexivity. Qed.

End ToyRuns.

(* ===================================================================== *)
(** * Part III. Further properties *)
(* ===================================================================== *)

(** ** normalize *)

Module NormalizeFacts.
Import Text Shape.

Lemma spaced_collapse t :
  spaced true (collapse_ws true t) = true /\
  spaced false (collapse_ws true t) = true /\
  spaced false (collapse_ws false t) = true.
Proof.
  induction t as [|c t (IH1 & IH2 & IH3)]; simpl; [auto|].
  destruct (is_space c) eqn:Hc; simpl.
  - rewrite IH1. auto.
  - rewrite Hc, IH3. auto.
Qed.

Lemma spaced_lstrip u : forall b,
  spaced b u = true -> spaced true (lstrip u) = true.
Proof.
  induction u as [|c u IH]; intros b Hs; simpl in *; [reflexivity|].
  destruct (is_space c) eqn:Hc.
  - apply andb_true_iff in Hs as [_ Hs]. now apply (IH true).
  - simpl. now rewrite Hc.
Qed.

(** Stripping the right end of a spaced text leaves nothing or a tidy text. *)
Lemma tidy_rstrip v : forall b,
  spaced b v = true ->
  rstrip v = "" \/ tidy_from b (rstrip v) = true.
Proof.
  induction v as [|c v IH]; intros b Hs; simpl in *; [now left|].
  destruct (is_space c) eqn:Hc.
  - apply andb_true_iff in Hs as [Hs Hv]. apply andb_true_iff in Hs as [Hc' Hb].
    destruct (IH true Hv) as [E | Ht].
    + rewrite E. now left.
    + destruct (rstrip v) as [|d r] eqn:E; [now left|].
      right. simpl tidy_from at 1. rewrite Hc, Hc', Hb. exact Ht.
  - destruct (IH false Hs) as [E | Ht].
    + rewrite E. right. simpl. now rewrite Hc.
    + destruct (rstrip v) as [|d r] eqn:E.
      * right. simpl. now rewrite Hc.
      * right. simpl tidy_from at 1. now rewrite Hc.
Qed.

Lemma tidy_normalize t : tidy (normalize t) = true.
Proof.
  unfold normalize, strip.
  destruct (spaced_collapse t) as (_ & _ & Hs).
  apply spaced_lstrip in Hs. apply tidy_rstrip in Hs as [E | Ht].
  - now rewrite E.
  - unfold tidy. destruct (rstrip _); [reflexivity | exact Ht].
Qed.

Lemma tidy_from_spaced t : forall b, tidy_from b t = true -> spaced b t = true.
Proof.
  induction t as [|c t IH]; intros b Ht; simpl in *; [reflexivity|].
  destruct (is_space c).
  - apply andb_true_iff in Ht as [Ht Hr]. rewrite Ht. simpl. now apply IH.
  - now apply IH.
Qed.

Lemma collapse_spaced t : forall b, spaced b t = true -> collapse_ws b t = t.
Proof.
  induction t as [|c t IH]; intros b Hs; simpl in *; [reflexivity|].
  destruct (is_space c).
  - apply andb_true_iff in Hs as [Hs Hr]. apply andb_true_iff in Hs as [Hc Hb].
    apply Ascii.eqb_eq in Hc. apply negb_true_iff in Hb. subst.
    now rewrite (IH true Hr).
  - now rewrite (IH false Hs).
Qed.

Lemma lstrip_tidy t : tidy_from true t = true -> lstrip t = t.
Proof.
  destruct t as [|c t]; simpl; [reflexivity|].
  destruct (is_space c); [|reflexivity].
  rewrite andb_false_r. discriminate.
Qed.

Lemma rstrip_tidy t : forall b, tidy_from b t = true -> rstrip t = t.
Proof.
  induction t as [|c t IH]; intros b Ht; simpl in *; [reflexivity|].
  destruct (is_space c) eqn:Hc.
  - apply andb_true_iff in Ht as [_ Hr]. rewrite (IH true Hr).
    destruct t; [discriminate Hr | reflexivity].
  - rewrite (IH false Ht). destruct t; reflexivity.
Qed.

Lemma normalize_tidy t : tidy t = true -> normalize t = t.
Proof.
  destruct t as [|c t]; [reflexivity|]. unfold tidy. intros Ht.
  unfold normalize, strip.
  rewrite (collapse_spaced _ false).
  - rewrite (lstrip_tidy _ Ht). now apply rstrip_tidy with (b := true).
  - apply tidy_from_spaced in Ht. simpl in *.
    destruct (is_space c); [|assumption].
    rewrite andb_false_r in Ht. discriminate.
Qed.

(** X1. Normalizing twice is normalizing once. *)
Theorem normalize_idempotent (t : string) :
  normalize (normalize t) = normalize t.
Proof. apply normalize_tidy, tidy_normalize. Qed.

(** X2. The texts that [normalize] leaves as they are, are exactly the
    tidy ones: words separated by single spaces, with no whitespace at
    either end and no whitespace character other than the space; and
    every result of [normalize] is of this form. *)
Theorem normalize_fixed_points (t : string) :
  tidy (normalize t) = true /\ (normalize t = t <-> tidy t = true).
Proof.
  split; [apply tidy_normalize|]. split.
  - intros E. rewrite <- E. apply tidy_normalize.
  - apply normalize_tidy.
Qed.

End NormalizeFacts.

(** ** The filters and the origin of the extracted names *)

Module FilterFacts.
Import Text Re Dom Extract Shape.
Import TextFacts ReFacts PatternFacts DomFacts ExtractFacts NormalizeFacts.

(** What a text that passed the three tests looks like. *)
Lemma is_candidate_true text :
  is_candidate text = true ->
  contains_digit_token 4 6 text /\ has_junk text = false /\
  5 <= String.length text.
Proof.
  unfold is_candidate.
  destruct (has_junk text) eqn:Hj, (String.length text <? 5) eqn:Hl;
    try discriminate.
  unfold has_id. destruct (search false id_pattern text) eqn:Hs; [|discriminate].
  intros _. apply Nat.ltb_ge in Hl. apply search_id_pattern in Hs. auto.
Qed.

Lemma classify_sound links name :
  In name (classify links) ->
  exists link, In link links /\ link_text link = name /\ is_candidate name = true.
Proof.
  rewrite classify_keep_first, in_keep_first, filter_In, in_map_iff.
  intros [[(link & E & Hin) Hc] _]. eauto.
Qed.

Lemma has_junk_of_token j text :
  In j junk -> contains (lower j) (lower text) = true -> has_junk text = true.
Proof.
  intros Hj Hc. unfold has_junk. apply existsb_exists. eauto.
Qed.

(** X3. Whatever the candidate links are, the classifier never returns a
    text that holds one of the junk words, in any letter case and also
    inside a longer word; never a text of fewer than five characters, be
    it a number; and never a text without four consecutive digits. *)
Theorem noise_is_never_extracted (links : list element) (text : string) :
  ((exists j, In j junk /\ contains (lower j) (lower text) = true)
   \/ String.length text < 5
   \/ ~ contains_digit_token 4 6 text) ->
  mem text (classify links) = false.
Proof.
  intros Hbad. destruct (mem text (classify links)) eqn:Hin; [|reflexivity].
  exfalso. apply mem_spec in Hin.
  apply classify_sound in Hin as (_ & _ & _ & Hc).
  apply is_candidate_true in Hc as (Hd & Hj & Hl).
  destruct Hbad as [(j & Hin & Hc) | [Hs | Hn]].
  - rewrite (@has_junk_of_token j text Hin Hc) in Hj. discriminate.
  - lia.
  - contradiction.
Qed.

Lemma noise_is_never_extracted_witness :
  mem "Raumfahrttechnik 12345" (classify (elements MoreSamples.noisy_page))
  = false.
Proof.
  apply noise_is_never_extracted.
  left. exists "Raum". split; [|reflexivity].
  simpl. tauto.
Defined.

(** A course whose title merely contains a junk word is lost, so is a
    bare four-digit number. *)
Example noisy_page_classes :
  extract_current_classes MoreSamples.noisy_page = ["Datenbanken 40404"].
Proof. reflexivity. Qed.

(** The tags after position [n]. *)
Lemma in_skipn_number n ts e :
  In e (skipn n (number ts)) -> In e (number ts) /\ n <= fst e.
Proof.
  unfold number. intros Hin.
  assert (Hgen : forall ts k n e,
             In e (skipn n (number_from k ts)) ->
             In e (number_from k ts) /\ k + n <= fst e).
  { clear. induction ts as [|t ts IH]; intros k n e Hin.
    - destruct n; destruct Hin.
    - destruct n as [|n].
      + cbn [skipn] in Hin. split; [exact Hin|].
        apply in_number_from in Hin. lia.
      + rewrite number_from_cons in Hin. cbn [skipn] in Hin.
        rewrite number_from_cons. apply IH in Hin as [Hin L].
        split; [now right | lia]. }
  apply Hgen in Hin. simpl in Hin. exact Hin.
Qed.

Lemma collect_links_sound following e :
  In e (collect_links following) -> In e following /\ is_anchor (snd e) = true.
Proof.
  induction following as [|x following IH]; simpl; [intros []|].
  destruct (is_header_div (snd x)); [intros []|].
  destruct (is_anchor (snd x)) eqn:Ha.
  - intros [<- | Hin]; [auto|]. apply IH in Hin as []. auto.
  - intros Hin. apply IH in Hin as []. auto.
Qed.

Lemma extract_sound soup name :
  In name (extract_current_classes soup) ->
  exists start link,
    find_start_node target_patterns (all_headers soup) = Some start /\
    In link (elements soup) /\ fst start < fst link /\
    is_anchor (snd link) = true /\ link_text link = name /\
    is_candidate name = true.
Proof.
  unfold extract_current_classes, _legacy_extract.
  destruct (find_start_node target_patterns (all_headers soup)) as [start|].
  - intros Hin. apply classify_sound in Hin as (link & Hin & E & Hc).
    unfold candidate_links, find_all_next in Hin.
    apply collect_links_sound in Hin as [Hin Ha].
    apply in_skipn_number in Hin as [Hin L].
    exists start, link. repeat split; auto.
  - destruct (contains _ _); [destruct (negb _)|]; intros [].
Qed.

Lemma NoDup_extract soup : NoDup (extract_current_classes soup).
Proof.
  unfold extract_current_classes, _legacy_extract.
  destruct (find_start_node _ _).
  - rewrite classify_keep_first. apply NoDup_keep_first.
  - destruct (contains _ _); [destruct (negb _)|]; constructor.
Qed.

(** X4. Every name that [extract_current_classes] returns is the
    normalized text of an [a] tag that stands after the selected start
    header in document order; it is tidy, has at least five characters
    and a run of four to six digits, and holds no junk word; and no name
    is returned twice. *)
Theorem extracted_names_are_anchor_texts (soup : document) :
  NoDup (extract_current_classes soup) /\
  forall name, In name (extract_current_classes soup) ->
    (exists start link,
       find_start_node target_patterns (all_headers soup) = Some start /\
       In link (elements soup) /\ fst start < fst link /\
       is_anchor (snd link) = true /\
       normalize (get_text (snd link)) = name) /\
    tidy name = true /\
    5 <= String.length name /\
    contains_digit_token 4 6 name /\
    has_junk name = false.
Proof.
  split; [apply NoDup_extract|]. intros name Hin.
  apply extract_sound in Hin as (start & link & Hs & Hl & Lt & Ha & E & Hc).
  apply is_candidate_true in Hc as (Hd & Hj & Hlen).
  split; [exists start, link; auto|].
  split; [rewrite <- E; apply tidy_normalize | auto].
Qed.

(** X5. Without a header div that matches a term pattern the extraction
    returns nothing, also when the page shows the legacy marker
    "Aktuelle Veranstaltungen": the legacy path never yields an entry. *)
Theorem legacy_path_yields_nothing (soup : document) :
  (forall h, In h (all_headers soup) ->
     header_matches exact_term h = false /\
     header_matches generic_term h = false) ->
  extract_current_classes soup = [] /\ _legacy_extract soup = [].
Proof.
  intros Hno. split.
  - apply no_header_no_classes. now apply find_start_node_none.
  - unfold _legacy_extract. now destruct (negb _).
Qed.

Lemma legacy_path_yields_nothing_witness :
  extract_current_classes MoreSamples.legacy_page = [] /\
  _legacy_extract MoreSamples.legacy_page = [].
Proof.
  apply legacy_path_yields_nothing. intros h [].
Defined.

Example legacy_page_has_marker_and_link :
  contains "Aktuelle Veranstaltungen" (soup_text MoreSamples.legacy_page) = true
  /\ classify (filter (fun e => is_anchor (snd e)) (elements MoreSamples.legacy_page))
     = ["Algorithmen 12345"].
Proof. split; reflexivity. Qed.

(** What the literals of a pattern accept, character by character. *)
Lemma matches_lit_inv ic p s :
  matches ic (Lit p) s -> exists c, s = String c "" /\ lit_ok ic p c = true.
Proof. inversion 1; subst; eauto. Qed.

Lemma lit_digit ic p c :
  lit_ok ic p c = true -> is_digit p = true -> is_digit c = true.
Proof.
  intros Hl Hp. apply lit_ok_lower in Hl.
  now rewrite <- (is_digit_same_lower _ _ Hl).
Qed.

(** What "2025/26" matches, the generic year pattern matches. *)
Lemma year_is_generic ic s :
  matches ic (lits "2025/26") s ->
  matches ic (Cat (times 4 (Cls Digit))
                  (opt (Cat (Lit "/") (times 2 (Cls Digit))))) s.
Proof.
  simpl lits. intros Hm.
  repeat match goal with
  | Hc : matches _ (Cat _ _) _ |- _ =>
      apply matches_cat_inv in Hc as (? & ? & -> & ? & ?)
  end.
  repeat match goal with
  | Hl : matches _ (Lit _) _ |- _ =>
      apply matches_lit_inv in Hl as (? & -> & ?)
  end.
  simpl.
  match goal with
  | |- matches _ _ (String ?a (String ?b (String ?c (String ?d
                     (String ?e (String ?f (String ?g ""))))))) =>
      change (matches ic
                (Cat (times 4 (Cls Digit))
                     (opt (Cat (Lit "/") (times 2 (Cls Digit)))))
                (String a (String b (String c (String d ""))) ++
                 (String e "" ++ String f (String g "")))%string)
  end.
  constructor.
  - apply matches_times. split; [reflexivity|]. simpl.
    repeat match goal with
    | Hl : lit_ok _ _ ?c = true |- context [is_digit ?c] =>
        rewrite (lit_digit _ _ _ Hl eq_refl)
    end.
    reflexivity.
  - apply MAltL. constructor.
    + now constructor.
    + apply matches_times. split; [reflexivity|]. simpl.
      repeat match goal with
      | Hl : lit_ok _ _ ?c = true |- context [is_digit ?c] =>
          rewrite (lit_digit _ _ _ Hl eq_refl)
      end.
      reflexivity.
Qed.

Lemma exact_is_generic ic s :
  matches ic exact_term s -> matches ic generic_term s.
Proof.
  unfold exact_term, generic_term. intros Hm.
  apply matches_cat_inv in Hm as (a & bc & -> & Ha & Hm).
  apply matches_cat_inv in Hm as (b & c & -> & Hb & Hc).
  constructor; [now apply MAltL|].
  constructor; [assumption | now apply year_is_generic].
Qed.

Lemma header_exact_is_generic h :
  header_matches exact_term h = true -> header_matches generic_term h = true.
Proof.
  unfold header_matches. rewrite !search_spec.
  intros (a & p & q & E & Hm). exists a, p, q.
  split; [assumption | now apply exact_is_generic].
Qed.

Lemma first_header_is_none p hs :
  first_header p hs = None -> forall h, In h hs -> header_matches p h = false.
Proof.
  induction hs as [|x hs IH]; simpl; [intros _ h []|].
  destruct (header_matches p x) eqn:Hx; [discriminate|].
  intros E h [<- | Hin]; auto.
Qed.

(** X6. The generic pattern accepts every header that the exact one
    accepts. So a start header is found exactly when some header matches
    the generic pattern; the exact pattern only decides which one. *)
Theorem generic_pattern_decides_start (headers : list element) :
  (forall h, header_matches exact_term h = true ->
             header_matches generic_term h = true)
  /\ (find_start_node target_patterns headers = None <->
      forall h, In h headers -> header_matches generic_term h = false).
Proof.
  split; [apply header_exact_is_generic|]. split.
  - unfold target_patterns. simpl.
    destruct (first_header exact_term headers); [discriminate|].
    destruct (first_header generic_term headers) eqn:Eg; [discriminate|].
    intros _. now apply first_header_is_none.
  - intros Hno. apply find_start_node_none. intros h Hin.
    split; [|now apply Hno].
    destruct (header_matches exact_term h) eqn:He; [|reflexivity].
    apply header_exact_is_generic in He. rewrite (Hno h Hin) in He. discriminate.
Qed.

End FilterFacts.

(** ** What the methods of the scraper never do *)

Module ConductFacts.
Import Text Dom Session LsfScraper Conduct ScraperFacts.
Local Open Scope py_scope.

Section Rules.
Context {W El : Type} `{Browser W El}.

#[local] Abbreviation M := (@Session.M W El).
#[local] Abbreviation scraper := (Session.scraper W El).

(** *** Computations that raise no Exception *)

Lemma no_exception_ret {A : Type} (a : A) : no_exception (ret a : M A).
Proof. intros s r s' E msg. injection E as <- <-. discriminate. Qed.

Lemma no_exception_get_self {A : Type} (f : scraper -> A) :
  no_exception (get_self f).
Proof. intros s r s' E msg. injection E as <- <-. discriminate. Qed.

Lemma no_exception_bind {A B : Type} (m : M A) (k : A -> M B) :
  no_exception m -> (forall a, no_exception (k a)) -> no_exception (bind m k).
Proof.
  intros Hm Hk s r s'. unfold bind. destruct (m s) as [[a | e] s1] eqn:E.
  - apply Hk.
  - intros E' msg. injection E' as <- <-. intros Er. injection Er as ->.
    exact (Hm _ _ _ E msg eq_refl).
Qed.

Lemma no_exception_try_except {A : Type} (body handler : M A) :
  no_exception handler -> no_exception (try_except body handler).
Proof.
  intros Hh s r s'. unfold try_except. destruct (body s) as [[a | e] s1].
  - intros E msg. injection E as <- <-. discriminate.
  - apply Hh.
Qed.

Lemma no_exception_try_except_Exception {A : Type}
      (body : M A) (handler : string -> M A) :
  (forall msg, no_exception (handler msg)) ->
  no_exception (try_except_Exception body handler).
Proof.
  intros Hh s r s'. unfold try_except_Exception.
  destruct (body s) as [[a | [m | m]] s1].
  - intros E msg. injection E as <- <-. discriminate.
  - apply Hh.
  - intros E msg. injection E as <- <-. discriminate.
Qed.

(** Without Exception a computation returns or lets a non-Exception out. *)
Lemma no_exception_cases {A : Type} (m : M A) :
  no_exception m ->
  forall s, (exists a s', m s = (Ok a, s')) \/
            (exists msg s', m s = (Raise (PyBaseException msg), s')).
Proof.
  intros Hm s. destruct (m s) as [[a | [msg | msg]] s'] eqn:E; eauto.
  exfalso. exact (Hm _ _ _ E msg eq_refl).
Qed.

(** *** Computations that always return *)

Lemma never_raises_ret {A : Type} (a : A) : never_raises (ret a : M A).
Proof. intros s. now exists a, s. Qed.

Lemma never_raises_bind {A B : Type} (m : M A) (k : A -> M B) :
  never_raises m -> (forall a, never_raises (k a)) -> never_raises (bind m k).
Proof.
  intros Hm Hk s. destruct (Hm s) as (a & s1 & E).
  destruct (Hk a s1) as (b & s2 & E2). exists b, s2.
  unfold bind. now rewrite E.
Qed.

Lemma never_raises_try_except {A : Type} (body handler : M A) :
  never_raises handler -> never_raises (try_except body handler).
Proof.
  intros Hh s. unfold try_except. destruct (body s) as [[a | e] s1]; eauto.
Qed.

Lemma never_raises_no_exception {A : Type} (m : M A) :
  never_raises m -> no_exception m.
Proof.
  intros Hm s r s' E msg ->. destruct (Hm s) as (a & s1 & E1). congruence.
Qed.

(** *** Computations confined to some calls *)

Section Confined.
Variable Inv : scraper -> Prop.
Variable allowed : event El -> bool.
Hypothesis Hblind : call_blind Inv.

Lemma confined_here (s : scraper) :
  Inv s -> Inv s /\ exists calls, trace s = trace s ++ calls /\ forallb allowed calls = true.
Proof. intros HI. split; [assumption|]. exists []. now rewrite app_nil_r. Qed.

Lemma confined_ret {A : Type} (a : A) : confined Inv allowed (ret a : M A).
Proof. intros s r s' HI E. injection E as <- <-. now apply confined_here. Qed.

Lemma confined_raise {A : Type} (e : exn) : confined Inv allowed (raise e : M A).
Proof. intros s r s' HI E. injection E as <- <-. now apply confined_here. Qed.

Lemma confined_get_self {A : Type} (f : scraper -> A) :
  confined Inv allowed (get_self f).
Proof. intros s r s' HI E. injection E as <- <-. now apply confined_here. Qed.

Lemma confined_call {A : Type} (ev : event El) (op : W -> outcome A * W) :
  allowed ev = true -> confined Inv allowed (call ev op).
Proof.
  intros Hev s r s' HI E. apply call_inv in E as (w & _ & ->).
  split; [now apply Hblind|]. exists [ev]. simpl. now rewrite Hev.
Qed.

Lemma confined_on_driver {A : Type} attr (ev : event El) (op : W -> outcome A * W) :
  allowed ev = true -> confined Inv allowed (on_driver attr ev op).
Proof.
  intros Hev s r s' HI. unfold on_driver. destruct (driver s).
  - now apply confined_call.
  - intros E. injection E as <- <-. now apply confined_here.
Qed.

Lemma confined_then (s s1 s2 : scraper) :
  (Inv s1 /\ exists c, trace s1 = trace s ++ c /\ forallb allowed c = true) ->
  (Inv s1 -> Inv s2 /\ exists c, trace s2 = trace s1 ++ c /\ forallb allowed c = true) ->
  Inv s2 /\ exists c, trace s2 = trace s ++ c /\ forallb allowed c = true.
Proof.
  intros (I1 & c1 & T1 & A1) H2. destruct (H2 I1) as (I2 & c2 & T2 & A2).
  split; [assumption|]. exists (c1 ++ c2).
  now rewrite T2, T1, app_assoc, forallb_app, A1, A2.
Qed.

Lemma confined_bind {A B : Type} (m : M A) (k : A -> M B) :
  confined Inv allowed m -> (forall a, confined Inv allowed (k a)) ->
  confined Inv allowed (bind m k).
Proof.
  intros Hm Hk s r s' HI. unfold bind. destruct (m s) as [[a | e] s1] eqn:E.
  - intros Ek. eapply confined_then.
    + exact (Hm _ _ _ HI E).
    + intros I1. exact (Hk _ _ _ _ I1 Ek).
  - intros E'. injection E' as <- <-. exact (Hm _ _ _ HI E).
Qed.

(** What is read off the scraper satisfies what the invariant says. *)
Lemma confined_bind_get_self {A B : Type} (f : scraper -> A) (k : A -> M B) :
  (forall s0, Inv s0 -> confined Inv allowed (k (f s0))) ->
  confined Inv allowed (bind (get_self f) k).
Proof.
  intros Hk s r s' HI E. unfold bind, get_self in E.
  exact (Hk s HI s r s' HI E).
Qed.

Lemma confined_try_except {A : Type} (body handler : M A) :
  confined Inv allowed body -> confined Inv allowed handler ->
  confined Inv allowed (try_except body handler).
Proof.
  intros Hb Hh s r s' HI. unfold try_except.
  destruct (body s) as [[a | e] s1] eqn:E.
  - intros E'. injection E' as <- <-. exact (Hb _ _ _ HI E).
  - intros Eh. eapply confined_then.
    + exact (Hb _ _ _ HI E).
    + intros I1. exact (Hh _ _ _ I1 Eh).
Qed.

Lemma confined_try_except_Exception {A : Type}
      (body : M A) (handler : string -> M A) :
  confined Inv allowed body -> (forall msg, confined Inv allowed (handler msg)) ->
  confined Inv allowed (try_except_Exception body handler).
Proof.
  intros Hb Hh s r s' HI. unfold try_except_Exception.
  destruct (body s) as [[a | [msg | msg]] s1] eqn:E.
  - intros E'. injection E' as <- <-. exact (Hb _ _ _ HI E).
  - intros Eh. eapply confined_then.
    + exact (Hb _ _ _ HI E).
    + intros I1. exact (Hh _ _ _ _ I1 Eh).
  - intros E'. injection E' as <- <-. exact (Hb _ _ _ HI E).
Qed.

End Confined.

Lemma anything_blind : call_blind (@anything W El).
Proof. intros ev s w _. exact I. Qed.

Lemma without_secret_blind : call_blind (@without_secret W El).
Proof. intros ev s w Hs. exact Hs. Qed.

(** More calls may always be allowed. *)
Lemma confined_more {A : Type} Inv (allowed allowed' : event El -> bool) (m : M A) :
  (forall e, allowed e = true -> allowed' e = true) ->
  confined Inv allowed m -> confined Inv allowed' m.
Proof.
  intros Hsub Hm s r s' HI E. destruct (Hm _ _ _ HI E) as (I' & c & T & Hc).
  split; [assumption|]. exists c. split; [assumption|].
  rewrite forallb_forall in *. auto.
Qed.

End Rules.

Ltac confined_step :=
  first
    [ assumption
    | match goal with Hs : forall _, confined _ _ _ |- _ => apply Hs end
    | apply confined_ret | apply confined_raise | apply confined_get_self
    | apply confined_call; [assumption | reflexivity]
    | apply confined_on_driver; [assumption | reflexivity]
    | apply confined_bind; [|intros ?]
    | apply confined_try_except
    | apply confined_try_except_Exception; [|intros ?]
    | match goal with
      | |- confined _ _ (if ?b then _ else _) => destruct b
      | |- confined _ _ (match ?x with _ => _ end) => destruct x
      end ].

Ltac quiet_step :=
  first
    [ assumption
    | match goal with Hs : forall _, no_exception _ |- _ => apply Hs end
    | apply no_exception_ret | apply no_exception_get_self
    | apply no_exception_try_except
    | apply no_exception_try_except_Exception; intros ?
    | apply no_exception_bind; [|intros ?]
    | match goal with
      | |- no_exception (if ?b then _ else _) => destruct b
      | |- no_exception (match ?x with _ => _ end) => destruct x
      end ].

Ltac advance E := erewrite bind_ok by exact E; cbv beta iota.

Section Methods.
Context {W El : Type} `{Browser W El}.

#[local] Abbreviation M := (@Session.M W El).
#[local] Abbreviation scraper := (Session.scraper W El).

(** *** The strategy loop *)

Lemma locator_eqb_refl (l : locator) : Toy.locator_eqb l l = true.
Proof.
  destruct l as [[] v]; unfold Toy.locator_eqb; simpl; apply String.eqb_refl.
Qed.

Lemma lookup_in (l : locator) strategies :
  In l strategies -> @lookup_among El strategies (CallFindElement l) = true.
Proof.
  intros Hin. simpl. apply existsb_exists. exists l.
  split; [assumption | apply locator_eqb_refl].
Qed.

Lemma first_displayed_lookups all strategies :
  incl strategies all ->
  confined anything (lookup_among all) (first_displayed strategies).
Proof.
  pose proof (@anything_blind W El) as Hb.
  induction strategies as [|l strategies IH]; intros Hincl; simpl.
  - apply confined_ret.
  - apply confined_bind.
    + apply confined_try_except; [|apply confined_ret].
      apply confined_bind.
      * apply confined_on_driver; [assumption|].
        apply lookup_in, Hincl. now left.
      * intros el. unfold is_displayed. repeat confined_step.
    + intros [el|]; [apply confined_ret|].
      apply IH. intros x Hx. apply Hincl. now right.
Qed.

Lemma first_displayed_never_raises strategies :
  never_raises (first_displayed (W := W) (El := El) strategies).
Proof.
  induction strategies as [|l strategies IH]; simpl.
  - apply never_raises_ret.
  - apply never_raises_bind.
    + apply never_raises_try_except, never_raises_ret.
    + intros [el|]; [apply never_raises_ret | exact IH].
Qed.

Lemma first_displayed_without_driver strategies (s : scraper) :
  driver s = false -> first_displayed strategies s = (Ok None, s).
Proof.
  intros D. induction strategies as [|l strategies IH]; simpl; [reflexivity|].
  unfold bind at 1, try_except, bind at 1, driver_find_element, on_driver.
  rewrite D. exact IH.
Qed.

(** One turn of the loop. *)
Lemma attempt_inv (l : locator) (s : scraper) r s1 :
  try_except
    (el <- driver_find_element l ;;
     shown <- is_displayed el ;;
     ret (if shown then Some el else None))
    (ret None) s = (r, s1) ->
  r = Ok None \/
  exists el, r = Ok (Some el) /\
             trace s1 = trace s ++ [CallFindElement l; CallIsDisplayed el].
Proof.
  unfold try_except, bind, driver_find_element, on_driver, is_displayed, call, ret.
  destruct (driver s); [|intros E; injection E as <- <-; now left].
  destruct (drv_find_element l (world s)) as [[el | e] w1];
    [|intros E; injection E as <- <-; now left].
  simpl. destruct (el_is_displayed el w1) as [[[] | e] w2];
    intros E; injection E as <- <-; [right | now left | now left].
  exists el. split; [reflexivity|]. simpl. now rewrite <- app_assoc.
Qed.

Lemma first_displayed_found strategies : forall (s : scraper) el s',
  first_displayed strategies s = (Ok (Some el), s') ->
  exists l before,
    In l strategies /\
    trace s' = trace s ++ before ++ [CallFindElement l; CallIsDisplayed el].
Proof.
  induction strategies as [|l strategies IH]; intros s el s'; simpl.
  - discriminate.
  - unfold bind at 1.
    match goal with
    | |- context [try_except ?b ?h s] =>
        destruct (try_except b h s) as [[found | e] s1] eqn:Ea
    end; [|discriminate].
    assert (Hs := Ea).
    eapply steady_try_except in Hs as (_ & c & Tc);
      [| unfold is_displayed; repeat steady_step | apply steady_ret].
    apply attempt_inv in Ea as [Ea | (el0 & Ea & T)].
    + injection Ea as ->. intros E. apply IH in E as (l' & before & Hin & T).
      exists l', (c ++ before). split; [now right|].
      now rewrite T, Tc, <- !app_assoc.
    + injection Ea as ->. intros E. injection E as <- <-.
      exists l, []. split; [now left | exact T].
Qed.

(** One turn of the loop, with what the world answered. *)
Lemma attempt_spec (l : locator) (s : scraper) r s1 :
  try_except
    (el <- driver_find_element l ;;
     shown <- is_displayed el ;;
     ret (if shown then Some el else None))
    (ret None) s = (r, s1) ->
  (r = Ok None /\ misses l s s1)
  \/ (exists el, r = Ok (Some el) /\ resolves l s el s1).
Proof.
  unfold try_except, bind, driver_find_element, on_driver, is_displayed, call, ret.
  destruct (driver s) eqn:D.
  2:{ intros E; injection E as <- <-. left. split; [reflexivity|].
      now apply misses_no_driver. }
  destruct (drv_find_element l (world s)) as [[el | e] w1] eqn:Ef.
  2:{ intros E; injection E as <- <-. left. split; [reflexivity|].
      now apply misses_not_found with (e := e). }
  simpl. destruct (el_is_displayed el w1) as [[[] | e] w2] eqn:Ed;
    intros E; injection E as <- <-.
  - right. exists el. split; [reflexivity|]. split; [assumption|].
    exists w1, w2. auto.
  - left. split; [reflexivity|].
    apply misses_not_displayed with (r := Ok false); auto. discriminate.
  - left. split; [reflexivity|].
    apply misses_not_displayed with (r := Raise e); auto. discriminate.
Qed.

Lemma resolves_run (l : locator) (s : scraper) el s' :
  resolves l s el s' ->
  try_except
    (el <- driver_find_element l ;;
     shown <- is_displayed el ;;
     ret (if shown then Some el else None))
    (ret None) s = (Ok (Some el), s').
Proof.
  intros (D & w1 & w2 & Ef & Ed & ->).
  unfold try_except, bind, driver_find_element, on_driver, is_displayed, call, ret.
  rewrite D, Ef. simpl. rewrite Ed. reflexivity.
Qed.

Lemma misses_run (l : locator) (s s1 : scraper) :
  misses l s s1 ->
  try_except
    (el <- driver_find_element l ;;
     shown <- is_displayed el ;;
     ret (if shown then Some el else None))
    (ret None) s = (Ok None, s1).
Proof.
  intros Hm.
  unfold try_except, bind, driver_find_element, on_driver, is_displayed, call, ret.
  destruct Hm as [D | e w1 D Ef | el w1 r w2 D Ef Ed Hr].
  - rewrite D. reflexivity.
  - rewrite D, Ef. reflexivity.
  - rewrite D, Ef. simpl. rewrite Ed.
    destruct r as [[] | e]; [contradiction | reflexivity | reflexivity].
Qed.

(** Strategies that resolve nothing are passed over. *)
Lemma all_miss_run before (s sa : scraper) rest :
  all_miss before s sa ->
  first_displayed (before ++ rest) s = first_displayed rest sa.
Proof.
  intros Hm. induction Hm as [s | l before s s1 s2 Hl Hr IH].
  - reflexivity.
  - simpl. erewrite bind_ok by (apply misses_run; exact Hl). exact IH.
Qed.

Lemma all_miss_none strategies (s s' : scraper) :
  all_miss strategies s s' -> first_displayed strategies s = (Ok None, s').
Proof.
  intros Ha. rewrite <- (app_nil_r strategies).
  rewrite (all_miss_run [] Ha). reflexivity.
Qed.

Lemma first_resolves_run strategies (s : scraper) el s' :
  first_resolves strategies s el s' ->
  first_displayed strategies s = (Ok (Some el), s').
Proof.
  intros (before & l & after & sa & -> & Ha & Hr).
  rewrite (all_miss_run (l :: after) Ha). simpl.
  erewrite bind_ok by (apply resolves_run; exact Hr). reflexivity.
Qed.

(** What the loop returns, read off what the world answered. *)
Lemma first_displayed_spec strategies : forall (s : scraper) r s',
  first_displayed strategies s = (r, s') ->
  (r = Ok None /\ all_miss strategies s s')
  \/ (exists el, r = Ok (Some el) /\ first_resolves strategies s el s').
Proof.
  induction strategies as [|l strategies IH]; intros s r s'; simpl.
  - intros E. injection E as <- <-. left. split; [reflexivity | constructor].
  - unfold bind at 1.
    match goal with
    | |- context [try_except ?b ?h s] =>
        destruct (try_except b h s) as [rf s1] eqn:Ea
    end.
    apply attempt_spec in Ea as [(-> & Hm) | (el & -> & Hr)].
    + intros E.
      apply IH in E
        as [(-> & Ha) | (el & -> & before & l' & after & sa & -> & Ha & Hr)].
      * left. split; [reflexivity|]. now apply all_miss_cons with (s1 := s1).
      * right. exists el. split; [reflexivity|].
        exists (l :: before), l', after, sa. split; [reflexivity|].
        split; [now apply all_miss_cons with (s1 := s1) | assumption].
    + intros E. injection E as <- <-. right. exists el.
      split; [reflexivity|]. exists [], l, strategies, s.
      split; [reflexivity|]. split; [constructor | assumption].
Qed.

(** X7. [first_displayed] never raises, whatever the lookups do; and
    without a driver it resolves nothing and leaves the scraper as it
    is. *)
Theorem resolver_never_raises (strategies : list locator) (s : scraper) :
  (exists found s', first_displayed strategies s = (Ok found, s'))
  /\ (driver s = false -> first_displayed strategies s = (Ok None, s)).
Proof.
  split.
  - apply first_displayed_never_raises.
  - apply first_displayed_without_driver.
Qed.

(** X8. [first_displayed] only looks: the calls it adds are
    [find_element] with strategies of its list and [is_displayed]. It
    returns an element exactly when that element is the one resolved by
    the first strategy of the list that resolves something: the lookup
    with that strategy returned it, it answered that it is displayed, and
    every strategy before it resolved nothing; these two calls are then
    the last ones. It returns None exactly when every strategy of the
    list resolves nothing: no driver, a lookup that raises, or an element
    that raises or answers that it is not displayed. *)
Theorem resolver_only_looks (strategies : list locator) (s : scraper) r s' :
  first_displayed strategies s = (r, s') ->
  (exists calls,
     trace s' = trace s ++ calls /\
     forallb (lookup_among strategies) calls = true)
  /\ (forall el, r = Ok (Some el) ->
        exists l before,
          In l strategies /\
          trace s' = trace s ++ before ++ [CallFindElement l; CallIsDisplayed el])
  /\ (forall el, r = Ok (Some el) <-> first_resolves strategies s el s')
  /\ (r = Ok None <-> all_miss strategies s s').
Proof.
  intros E. split; [|split; [|split]].
  - assert (Hc := @first_displayed_lookups strategies strategies (incl_refl _)).
    destruct (Hc s r s' I E) as (_ & Hcalls). exact Hcalls.
  - intros el ->. now apply first_displayed_found.
  - intros el. split.
    + intros ->.
      apply first_displayed_spec in E as [(Hr & _) | (el' & Hr & Hf)];
        [discriminate|].
      injection Hr as <-. exact Hf.
    + intros Hf. apply first_resolves_run in Hf. congruence.
  - split.
    + intros ->.
      apply first_displayed_spec in E as [(_ & Ha) | (el & Hr & _)];
        [assumption | discriminate].
    + intros Ha. apply all_miss_none in Ha. congruence.
Qed.

(** *** _dump_debug_info *)

Lemma dump_no_exception prefix :
  no_exception (_dump_debug_info (W := W) (El := El) prefix).
Proof. unfold _dump_debug_info. repeat quiet_step. Qed.

Lemma dump_capture_calls prefix :
  confined anything capture_call (_dump_debug_info (W := W) (El := El) prefix).
Proof.
  pose proof (@anything_blind W El) as Hb.
  unfold _dump_debug_info, driver_save_screenshot, driver_page_source.
  repeat confined_step.
Qed.

Lemma dump_without_driver prefix (s : scraper) :
  driver s = false -> _dump_debug_info prefix s = (Ok tt, s).
Proof.
  intros D. unfold _dump_debug_info, bind, get_self. now rewrite D.
Qed.

(** X9. [_dump_debug_info] never raises an Exception: a failure of the
    screenshot or of the file is swallowed. Without a driver it does
    nothing. The calls it adds are those of the capture (path,
    screenshot, file, page source): it never acts on the page. *)
Theorem capture_is_contained (prefix : string) (s : scraper) :
  ((exists s', _dump_debug_info prefix s = (Ok tt, s')) \/
   (exists msg s', _dump_debug_info prefix s = (Raise (PyBaseException msg), s')))
  /\ (driver s = false -> _dump_debug_info prefix s = (Ok tt, s))
  /\ exists calls,
       trace (snd (_dump_debug_info prefix s)) = trace s ++ calls /\
       forallb capture_call calls = true.
Proof.
  split; [|split].
  - destruct (no_exception_cases (dump_no_exception prefix) s)
      as [([] & s' & E) | E]; eauto.
  - apply dump_without_driver.
  - destruct (_dump_debug_info prefix s) as [r s'] eqn:E.
    assert (Hd := dump_capture_calls prefix).
    destruct (Hd s r s' I E) as (_ & Hc). exact Hc.
Qed.

(** *** _inject_sso_credentials *)

Lemma inject_no_exception :
  no_exception (_inject_sso_credentials (W := W) (El := El)).
Proof.
  unfold _inject_sso_credentials. pose proof dump_no_exception.
  repeat quiet_step.
Qed.

(** X10. [_inject_sso_credentials] never raises an Exception: it returns
    True or False, or lets through an exception that is no Exception. *)
Theorem injection_contains_exceptions (s : scraper) :
  (exists ok s', _inject_sso_credentials s = (Ok ok, s')) \/
  (exists msg s', _inject_sso_credentials s = (Raise (PyBaseException msg), s')).
Proof. apply no_exception_cases, inject_no_exception. Qed.

Lemma lookup_hands_off strategies (e : event El) :
  lookup_among strategies e = true -> hands_off e = true.
Proof. destruct e; simpl; auto; discriminate. Qed.

Lemma capture_hands_off (e : event El) :
  capture_call e = true -> hands_off e = true.
Proof. destruct e; simpl; auto; discriminate. Qed.

Lemma watch_hands_off (e : event El) :
  watch_call e = true -> hands_off e = true.
Proof. destruct e; simpl; auto; discriminate. Qed.

Lemma inject_wait_watches : confined anything watch_call (inject_wait (W := W) (El := El)).
Proof.
  pose proof (@anything_blind W El) as Hb.
  unfold inject_wait, wait, driver_current_url, driver_page_source.
  repeat confined_step.
Qed.

Lemma inject_wait_needs_driver (s : scraper) b s1 :
  inject_wait s = (Ok b, s1) -> driver s1 = true.
Proof.
  intros E. assert (Hs := E). apply steady_inject_wait in Hs as (D & _).
  unfold inject_wait in E.
  apply bind_ok_inv in E as ([] & sa & Ea & E).
  apply bind_ok_inv in E as (url & sb & Eb & _).
  apply on_driver_ok in Eb as (Db & _).
  assert (Hw := Ea). apply steady_call in Hw as (Dw & _).
  congruence.
Qed.

(** X11. When no username field is resolved, the injector captures two
    debug artifacts, under "lsf_login_no_user" and then under
    "lsf_injection_fail", and returns False; from the wait to the end no
    call fills, clicks or submits anything. *)
Theorem missing_username_captures_twice (s s1 s2 s3 s4 : scraper) :
  inject_wait s = (Ok false, s1) ->
  first_displayed user_strategies s1 = (Ok None, s2) ->
  _dump_debug_info "lsf_login_no_user" s2 = (Ok tt, s3) ->
  _dump_debug_info "lsf_injection_fail" s3 = (Ok tt, s4) ->
  _inject_sso_credentials s = (Ok false, s4)
  /\ exists c1 c2 c3,
       trace s4 = trace s ++ c1 ++ CallDebugBasePath "lsf_login_no_user" :: c2
                          ++ CallDebugBasePath "lsf_injection_fail" :: c3
       /\ forallb hands_off
            (c1 ++ CallDebugBasePath "lsf_login_no_user" :: c2
                ++ CallDebugBasePath "lsf_injection_fail" :: c3) = true.
Proof.
  intros Ew Eu Ed1 Ed2. split.
  - assert (Einj : inject_username s1
                   = (Raise (PyException "Username field not found"), s3)).
    { unfold inject_username. advance Eu. advance Ed1. reflexivity. }
    unfold _inject_sso_credentials, try_except_Exception.
    advance Ew. cbv iota. erewrite bind_raise by exact Einj.
    advance Ed2. reflexivity.
  - assert (D1 := inject_wait_needs_driver _ Ew).
    assert (D2 := Eu). apply steady_first_displayed in D2 as (D2 & _).
    assert (D3 := Ed1). apply steady_dump in D3 as (D3 & _).
    assert (Hw := inject_wait_watches). destruct (Hw _ _ _ I Ew) as (_ & cw & Tw & Aw).
    assert (Hu := @first_displayed_lookups user_strategies user_strategies (incl_refl _)).
    destruct (Hu _ _ _ I Eu) as (_ & cu & Tu & Au).
    assert (Hd1 := dump_capture_calls "lsf_login_no_user").
    destruct (Hd1 _ _ _ I Ed1) as (_ & cd1 & Td1 & Ad1).
    assert (Hd2 := dump_capture_calls "lsf_injection_fail").
    destruct (Hd2 _ _ _ I Ed2) as (_ & cd2 & Td2 & Ad2).
    assert (F1 := Ed1). apply dump_attempted in F1 as (c2 & F1); [|congruence].
    assert (F2 := Ed2). apply dump_attempted in F2 as (c3 & F2); [|congruence].
    rewrite Td1 in F1. apply app_inv_head in F1. subst cd1.
    rewrite Td2 in F2. apply app_inv_head in F2. subst cd2.
    exists (cw ++ cu), c2, c3. split.
    + rewrite Td2, Td1, Tu, Tw. now rewrite <- !app_assoc.
    + rewrite !forallb_app.
      rewrite (proj2 (forallb_forall _ _)); [|intros e He; apply watch_hands_off;
        exact (proj1 (forallb_forall _ _) Aw e He)].
      rewrite (proj2 (forallb_forall _ _)); [|intros e He;
        apply (lookup_hands_off user_strategies);
        exact (proj1 (forallb_forall _ _) Au e He)].
      simpl.
      assert (G2 : forallb hands_off c2 = true).
      { apply forallb_forall. intros e He. apply capture_hands_off.
        simpl in Ad1. apply (proj1 (forallb_forall _ _) Ad1). exact He. }
      assert (G3 : forallb hands_off c3 = true).
      { apply forallb_forall. intros e He. apply capture_hands_off.
        simpl in Ad2. apply (proj1 (forallb_forall _ _) Ad2). exact He. }
      rewrite forallb_app. simpl. now rewrite G2, G3.
Qed.

(** *** The submission *)

(** X17. The submit step acts exactly once, and on what the lookups gave.
    It first runs the resolver on the submit strategies, which adds
    lookups only. When the resolver returns a control (the first strategy
    that resolves something resolves it), the step clicks that control;
    when it returns none (every submit strategy resolves nothing), the
    step submits the form of the password field. The click or the submit
    is the last call, the only one that acts on the page, and its outcome
    is the outcome of the step. *)
Theorem form_is_submitted_once (pass_field : El) (s : scraper) r s' :
  inject_submit pass_field s = (r, s') ->
  exists found s1 looks,
    first_displayed submit_strategies s = (Ok found, s1)
    /\ trace s1 = trace s ++ looks
    /\ forallb (lookup_among submit_strategies) looks = true
    /\ match found with
       | Some btn =>
           first_resolves submit_strategies s btn s1
           /\ (exists w, el_click btn (world s1) = (r, w)
                         /\ s' = record_call (CallClick btn) s1 w)
           /\ trace s' = trace s ++ looks ++ [CallClick btn]
       | None =>
           all_miss submit_strategies s s1
           /\ (exists w, el_submit pass_field (world s1) = (r, w)
                         /\ s' = record_call (CallSubmit pass_field) s1 w)
           /\ trace s' = trace s ++ looks ++ [CallSubmit pass_field]
       end.
Proof.
  unfold inject_submit. intros E.
  destruct (first_displayed_never_raises submit_strategies s) as (found & s1 & Ef).
  assert (Hl := @first_displayed_lookups submit_strategies submit_strategies
                  (incl_refl _)).
  destruct (Hl _ _ _ I Ef) as (_ & looks & Tl & Al).
  erewrite bind_ok in E by exact Ef.
  exists found, s1, looks.
  split; [assumption|]. split; [assumption|]. split; [assumption|].
  assert (Hspec := Ef). apply first_displayed_spec in Hspec.
  destruct found as [btn|].
  - destruct Hspec as [(Hr & _) | (el & Hr & Hf)]; [discriminate|].
    injection Hr as <-.
    unfold click in E. apply call_inv in E as (w & Ew & ->).
    split; [assumption|]. split; [eauto|].
    simpl. rewrite Tl, <- app_assoc. reflexivity.
  - destruct Hspec as [(_ & Ha) | (el & Hr & _)]; [|discriminate].
    unfold submit in E. apply call_inv in E as (w & Ew & ->).
    split; [assumption|]. split; [eauto|].
    simpl. rewrite Tl, <- app_assoc. reflexivity.
Qed.

(** *** The second factor *)

Lemma inject_2fa_watches :
  confined without_secret watch_call (inject_2fa (W := W) (El := El)).
Proof.
  pose proof (@without_secret_blind W El) as Hb.
  unfold inject_2fa, wait, driver_page_source.
  apply confined_bind; [repeat confined_step|]. intros _.
  apply confined_bind; [repeat confined_step|]. intros source.
  apply confined_bind; [repeat confined_step|]. intros asked.
  apply confined_bind_get_self. intros s0 [E | E]; rewrite E;
    destruct asked; apply confined_ret.
Qed.

(** X12. Without a configured secret (none, or the empty string) the 2FA
    step types no code: whatever the page shows, it only waits and reads
    the page source. *)
Theorem no_secret_no_token (s : scraper) r s' :
  without_secret s ->
  inject_2fa s = (r, s') ->
  exists calls, trace s' = trace s ++ calls /\ forallb watch_call calls = true.
Proof.
  intros Hs E. assert (Hc := inject_2fa_watches).
  destruct (Hc s r s' Hs E) as (_ & Hcalls). exact Hcalls.
Qed.

(** *** login *)

Lemma open_login_form_never_raises url :
  never_raises (open_login_form (W := W) (El := El) url).
Proof.
  unfold open_login_form. destruct (contains "sso.itmc" url).
  - apply never_raises_ret.
  - apply never_raises_try_except, never_raises_ret.
Qed.

(** X13. An Exception leaves [login] only from its first lines, the
    navigation and the two reads that follow, which stand outside every
    [try]; whatever happens later is caught. *)
Theorem login_exceptions_come_from_session_check (s : scraper) msg s' :
  login s = (Raise (PyException msg), s') ->
  check_session s = (Raise (PyException msg), s').
Proof.
  unfold login, bind at 1.
  destruct (check_session s) as [[[url|] | e] s1] eqn:Ec.
  - intros E. exfalso.
    assert (Hn : no_exception (open_login_form url ;;; _inject_sso_credentials)).
    { apply no_exception_bind.
      - apply never_raises_no_exception, open_login_form_never_raises.
      - intros _. apply inject_no_exception. }
    exact (Hn _ _ _ E msg eq_refl).
  - discriminate.
  - intros E. injection E as -> ->. reflexivity.
Qed.

Lemma lookup_within_login strategies (e : event El) :
  lookup_among strategies e = true -> within_login e = true.
Proof. destruct e; simpl; auto; discriminate. Qed.

Lemma capture_within_login (e : event El) :
  capture_call e = true -> within_login e = true.
Proof. destruct e; simpl; auto; discriminate. Qed.

Lemma first_displayed_within_login strategies :
  confined anything within_login (first_displayed (W := W) (El := El) strategies).
Proof.
  apply confined_more with (allowed := lookup_among strategies).
  - apply lookup_within_login.
  - apply first_displayed_lookups, incl_refl.
Qed.

Lemma dump_within_login prefix :
  confined anything within_login (_dump_debug_info (W := W) (El := El) prefix).
Proof.
  apply confined_more with (allowed := capture_call).
  - apply capture_within_login.
  - apply dump_capture_calls.
Qed.

Lemma first_link_within_login texts :
  confined anything within_login (first_link (W := W) (El := El) texts).
Proof.
  pose proof (@anything_blind W El) as Hb.
  induction texts as [|t texts IH]; simpl; unfold driver_find_element;
    repeat confined_step.
Qed.

Lemma inject_within_login :
  confined anything within_login (_inject_sso_credentials (W := W) (El := El)).
Proof.
  pose proof (@anything_blind W El) as Hb.
  pose proof first_displayed_within_login. pose proof dump_within_login.
  unfold _inject_sso_credentials, inject_wait, inject_username, inject_password,
    inject_submit, inject_2fa, wait, driver_current_url, driver_page_source,
    driver_find_element, clear, send_keys, click, submit.
  repeat confined_step.
Qed.

Lemma login_within_login :
  confined anything within_login (login (W := W) (El := El)).
Proof.
  pose proof (@anything_blind W El) as Hb.
  pose proof first_link_within_login. pose proof inject_within_login.
  unfold login, check_session, open_login_form, wait, driver_get,
    driver_current_url, driver_page_source, click.
  repeat confined_step.
Qed.

(** X14. When [login] returns False, for whatever reason, the operation
    answers with the error "Login failed" and never fetches the page: from
    the set-up of the driver to its release no HTTP fetch is made. *)
Theorem failed_login_fetches_nothing (s0 s1 s2 s3 : scraper) :
  _setup_driver s0 = (Ok tt, s1) ->
  login s1 = (Ok false, s2) ->
  release s2 = (Ok tt, s3) ->
  get_current_classes s0 = (Ok (Failure "Login failed"), s3)
  /\ exists calls,
       trace s3 = trace s1 ++ calls /\
       forallb (fun e => negb (match e with CallFetch _ => true | _ => false end))
               calls = true.
Proof.
  intros Es Elog Er. split.
  - assert (Eo : orchestrate s0 = (Ok (Failure "Login failed"), s2)).
    { unfold orchestrate. advance Es. advance Elog. reflexivity. }
    unfold get_current_classes, try_finally, try_except_Exception.
    now rewrite Eo, Er.
  - assert (Hl := login_within_login).
    destruct (Hl _ _ _ I Elog) as (_ & c & T & A).
    assert (Tr : exists q, trace s3 = trace s2 ++ q /\
                           forallb (fun e : event El =>
                                      match e with CallQuit => true | _ => false end) q = true).
    { destruct (driver s2) eqn:D.
      - assert (Tq := Er). apply release_with_driver in Tq as (_ & Tq); [|assumption].
        exists [CallQuit]. split; [assumption | reflexivity].
      - unfold release, bind, get_self in Er. cbv beta iota in Er.
        rewrite D in Er. unfold ret in Er. injection Er as <-.
        exists []. split; [|reflexivity]. now rewrite app_nil_r. }
    destruct Tr as (q & Tq & Aq).
    exists (c ++ q). split; [now rewrite Tq, T, app_assoc|].
    rewrite forallb_app. apply andb_true_iff. split.
    + apply forallb_forall. intros e He.
      assert (He' := proj1 (forallb_forall _ _) A e He).
      destruct e; simpl in *; auto; discriminate.
    + apply forallb_forall. intros e He.
      assert (He' := proj1 (forallb_forall _ _) Aq e He).
      destruct e; simpl in *; auto; discriminate.
Qed.

(** *** get_current_classes *)

Lemma guarded_no_exception :
  no_exception
    (try_except_Exception (orchestrate (W := W) (El := El))
                          (fun msg => ret (Failure msg))).
Proof.
  apply no_exception_try_except_Exception. intros msg. apply no_exception_ret.
Qed.

(** X15. [get_current_classes] answers with a result dictionary unless an
    exception that is no Exception escapes, or the driver's [quit] in the
    [finally] block raises: every Exception of the orchestration itself
    becomes a failure result. *)
Theorem operation_answers_unless_release_raises (s : scraper) :
  (exists res s', get_current_classes s = (Ok res, s'))
  \/ (exists msg s', get_current_classes s = (Raise (PyBaseException msg), s'))
  \/ (exists rb sb e s',
        try_except_Exception orchestrate (fun msg => ret (Failure msg)) s = (rb, sb)
        /\ release sb = (Raise e, s')
        /\ get_current_classes s = (Raise e, s')).
Proof.
  unfold get_current_classes, try_finally.
  destruct (no_exception_cases guarded_no_exception s)
    as [(res & sb & Eb) | (msg & sb & Eb)]; rewrite Eb;
    destruct (release sb) as [[[] | e] sq] eqn:Er; eauto 10.
Qed.




End Methods.
End ConductFacts.

(** ** Further runs on the scripted browser *)

Module MoreRuns.
Import Text Dom Session LsfScraper Toy MoreSamples Conduct ConductFacts.
Local Open Scope py_scope.

Ltac conj := repeat match goal with |- _ /\ _ => split end.

Lemma resolver_only_looks_witness :
  (exists calls,
     trace (snd (first_displayed user_strategies (running sso_form)))
     = trace (running sso_form) ++ calls /\
     forallb (lookup_among user_strategies) calls = true)
  /\ (forall el,
        fst (first_displayed user_strategies (running sso_form)) = Ok (Some el) ->
        exists l before,
          In l user_strategies /\
          trace (snd (first_displayed user_strategies (running sso_form)))
          = trace (running sso_form) ++ before
            ++ [CallFindElement l; CallIsDisplayed el])
  /\ (forall el,
        fst (first_displayed user_strategies (running sso_form)) = Ok (Some el)
        <-> first_resolves user_strategies (running sso_form) el
              (snd (first_displayed user_strategies (running sso_form))))
  /\ (fst (first_displayed user_strategies (running sso_form)) = Ok None
      <-> all_miss user_strategies (running sso_form)
            (snd (first_displayed user_strategies (running sso_form)))).
Proof.
  apply (@resolver_only_looks _ _ _ user_strategies (running sso_form)).
  apply surjective_pairing.
Defined.

(** The password field is the first of its list on the complete form;
    on the form without it all four strategies are tried. *)
Example resolver_runs :
  first_displayed pass_strategies (running sso_form)
  = (Ok (Some (ID, "password")),
     {| username := "smmuster"; password := "geheim"; totp_secret := None;
        driver := true; world := sso_form;
        trace := [CallSetupDriver; CallFindElement (ID, "password");
                  CallIsDisplayed (ID, "password")] |})
  /\ fst (first_displayed pass_strategies (running sso_without_password)) = Ok None
  /\ first_displayed pass_strategies (fresh sso_form) = (Ok None, fresh sso_form).
Proof. conj; vm_compute; reflexivity. Qed.

Lemma missing_username_witness :
  exists s4 : scraper browser locator,
    _inject_sso_credentials (running sso_blank) = (Ok false, s4)
    /\ exists c1 c2 c3,
         trace s4 = trace (running sso_blank)
                    ++ c1 ++ CallDebugBasePath "lsf_login_no_user" :: c2
                    ++ CallDebugBasePath "lsf_injection_fail" :: c3
         /\ forallb hands_off
              (c1 ++ CallDebugBasePath "lsf_login_no_user" :: c2
                  ++ CallDebugBasePath "lsf_injection_fail" :: c3) = true.
Proof.
  eexists.
  eapply (@missing_username_captures_twice _ _ _ (running sso_blank));
    vm_compute; reflexivity.
Defined.

Lemma no_secret_no_token_witness :
  exists calls,
    trace (snd (inject_2fa (running token_page)))
    = trace (running token_page) ++ calls
    /\ forallb watch_call calls = true.
Proof.
  apply (@no_secret_no_token _ _ _ (running token_page)
           (fst (inject_2fa (running token_page)))).
  - left. reflexivity.
  - apply surjective_pairing.
Defined.

(** The same page with a secret: the code is computed and typed. *)
Example token_is_typed_with_secret :
  trace (snd (inject_2fa (with_secret token_page)))
  = [ CallSetupDriver; CallWaitUntil UntilOtpOrPortal; CallPageSource;
      CallTotpNow; CallFindElement (ID, "token"); CallIsDisplayed (ID, "token");
      CallSendKeys (ID, "token") "123456";
      CallFindElement (NAME, "_eventId_proceed");
      CallClick (NAME, "_eventId_proceed") ]
  /\ trace (snd (inject_2fa (running token_page)))
     = [ CallSetupDriver; CallWaitUntil UntilOtpOrPortal; CallPageSource ].
Proof. conj; vm_compute; reflexivity. Qed.

Lemma form_is_submitted_once_witness :
  exists found s1 looks,
    first_displayed submit_strategies (running sso_form) = (Ok found, s1)
    /\ trace s1 = trace (running sso_form) ++ looks
    /\ forallb (lookup_among submit_strategies) looks = true
    /\ match found with
       | Some btn =>
           first_resolves submit_strategies (running sso_form) btn s1
           /\ (exists w,
                  el_click btn (world s1)
                  = (fst (inject_submit (ID, "password") (running sso_form)), w)
                  /\ snd (inject_submit (ID, "password") (running sso_form))
                     = record_call (CallClick btn) s1 w)
           /\ trace (snd (inject_submit (ID, "password") (running sso_form)))
              = trace (running sso_form) ++ looks ++ [CallClick btn]
       | None =>
           all_miss submit_strategies (running sso_form) s1
           /\ (exists w,
                  el_submit (ID, "password") (world s1)
                  = (fst (inject_submit (ID, "password") (running sso_form)), w)
                  /\ snd (inject_submit (ID, "password") (running sso_form))
                     = record_call (CallSubmit (ID, "password")) s1 w)
           /\ trace (snd (inject_submit (ID, "password") (running sso_form)))
              = trace (running sso_form) ++ looks ++ [CallSubmit (ID, "password")]
       end.
Proof.
  apply (@form_is_submitted_once _ _ _ (ID, "password") (running sso_form)
           (fst (inject_submit (ID, "password") (running sso_form)))).
  apply surjective_pairing.
Defined.

(** With a submit control it is clicked; without, the form is submitted. *)
Example submit_runs :
  trace (snd (inject_submit (ID, "password") (running sso_form)))
  = [ CallSetupDriver; CallFindElement (NAME, "_eventId_proceed");
      CallIsDisplayed (NAME, "_eventId_proceed");
      CallClick (NAME, "_eventId_proceed") ]
  /\ trace (snd (inject_submit (ID, "password") (running sso_without_password)))
     = [ CallSetupDriver; CallFindElement (NAME, "_eventId_proceed");
         CallFindElement (ID, "loginButton_0");
         CallFindElement (CSS_SELECTOR, "button[type='submit']");
         CallFindElement (CSS_SELECTOR, "input[type='submit']");
         CallSubmit (ID, "password") ].
Proof. conj; vm_compute; reflexivity. Qed.

Lemma login_exception_witness :
  check_session (running unreachable)
  = (Raise (PyException "net::ERR_NAME_NOT_RESOLVED"),
     snd (login (running unreachable))).
Proof.
  apply login_exceptions_come_from_session_check.
  vm_compute. reflexivity.
Defined.

Lemma failed_login_witness :
  exists s1 s3 : scraper browser locator,
    get_current_classes (fresh sso_without_password)
    = (Ok (Failure "Login failed"), s3)
    /\ exists calls,
         trace s3 = trace s1 ++ calls /\
         forallb (fun e => negb (match e with CallFetch _ => true | _ => false end))
                 calls = true.
Proof.
  do 2 eexists.
  eapply (@failed_login_fetches_nothing _ _ _ (fresh sso_without_password));
    vm_compute; reflexivity.
Defined.


End MoreRuns.
